(** * ratescompare: electricity cost summaries from half-hourly readings

    A shallow embedding of the two programs of the repository,
    [calculate.py] (one CSV row per day, one column per half hour) and
    [eip13a.py] (one CSV row per reading, with an import/export flag),
    and the properties their specification states about them.

    Conventions of the embedding:
    - a Python [float] (and a numpy [float64]) is a primitive binary64
      float of Rocq; a [timedelta] built by the programs is a whole number
      of minutes and is represented by that number in [Z];
    - an exception is a value of [exn], a computation that may raise
      returns a [result];
    - a CSV cell is represented by what the pandas converters make of it
      (see [Calculate.cell] and [Eip13a.raw_row]);
    - a text is a string of ASCII characters;
    - the sums are those of pandas and numpy on binary64: the sum of a
      group is compensated ([Fl.group_sum]), the sum of a column of
      floats is numpy's pairwise sum ([Fl.np_sum]), the sum of a row of
      objects adds from the left ([Fl.series_sum]). *)

From Stdlib Require Import ZArith List String Ascii Bool Lia.
From Stdlib Require Import Floats Uint63.
Import ListNotations.

Set Warnings "-inexact-float".

Local Open Scope string_scope.
Local Open Scope list_scope.
Local Open Scope Z_scope.

(** ** Exceptions *)

Inductive exn : Type :=
| ValueError
| KeyError
| TypeError
| AttributeError
| OverflowError.

Inductive result (A : Type) : Type :=
| Ok (a : A)
| Err (e : exn).

Arguments Ok {A} a.
Arguments Err {A} e.

Definition bind {A B : Type} (r : result A) (k : A -> result B) : result B :=
  match r with
  | Ok a => k a
  | Err e => Err e
  end.

Notation "x <- r ;; k" := (bind r (fun x => k))
  (at level 61, r at next level, right associativity).

Definition result_map {A B : Type} (f : A -> B) (r : result A) : result B :=
  match r with
  | Ok a => Ok (f a)
  | Err e => Err e
  end.

Fixpoint mapM {A B : Type} (f : A -> result B) (l : list A) : result (list B) :=
  match l with
  | [] => Ok []
  | a :: l' => b <- f a ;; bs <- mapM f l' ;; Ok (b :: bs)
  end.

(** ** Python floats *)

Module Fl.

Definition zero : float := 0%float.
Definition hundred : float := 100%float.

(** Truth value of a float in a condition: everything but a zero. *)
Definition truthy (x : float) : bool := negb (PrimFloat.eqb x zero).

(** [float(n)] for a count. *)
Definition of_count (n : nat) : float :=
  PrimFloat.of_uint63 (Uint63.of_Z (Z.of_nat n)).


(** The sum of a row of objects ([row[cols].sum()]): missing values count
    as zero, the rest is added up from the left, starting at zero. So are
    the columns of a frame added up when they lie column by column in
    memory (see [row_sums]). *)
Definition series_sum (l : list float) : float :=
  fold_left (fun acc x => (acc + (if PrimFloat.is_nan x then zero else x))%float)
            l zero.

(** The values added one after the other to [start]. *)
Definition plain_sum (l : list float) (start : float) : float :=
  fold_left PrimFloat.add l start.

(** [r[j] += block[j]] for every [j]. *)
Fixpoint add_each (r block : list float) : list float :=
  match r, block with
  | x :: r', y :: block' => (x + y)%float :: add_each r' block'
  | _, _ => r
  end.

(** The eight running sums of numpy's unrolled loop: the groups of eight
    values are added to them, place by place; what is left is fewer than
    eight values. *)
Fixpoint unrolled (fuel : nat) (r rest : list float) : list float * list float :=
  match fuel with
  | O => (r, rest)
  | S fuel' =>
      if (List.length rest <? 8)%nat then (r, rest)
      else unrolled fuel' (add_each r (firstn 8 rest)) (skipn 8 rest)
  end.

(** A block of 8 to 128 values. *)
Definition block_sum (l : list float) : float :=
  let '(r, rest) := unrolled (List.length l) (firstn 8 l) (skipn 8 l) in
  let at_ i := nth i r zero in
  let res := (((at_ 0%nat + at_ 1%nat) + (at_ 2%nat + at_ 3%nat))
              + ((at_ 4%nat + at_ 5%nat) + (at_ 6%nat + at_ 7%nat)))%float in
  plain_sum rest res.

(** numpy's pairwise sum of a contiguous array of float64: fewer than 8
    values are added from the left; up to 128 go through the unrolled
    loop; more are split in two near the middle, at a multiple of 8. At
    most [fuel] splits. *)
Fixpoint pairwise_sum (fuel : nat) (l : list float) : float :=
  let n := List.length l in
  if (n <? 8)%nat then plain_sum l zero
  else if (n <=? 128)%nat then block_sum l
  else
    match fuel with
    | O => plain_sum l zero
    | S fuel' =>
        let n2 := (n / 2 - (n / 2) mod 8)%nat in
        (pairwise_sum fuel' (firstn n2 l) + pairwise_sum fuel' (skipn n2 l))%float
    end.

(** [Series.sum()] of a column of float64 with [skipna=True]: missing
    values count as zero, the rest is numpy's sum, from an initial zero. *)
Definition np_sum (l : list float) : float :=
  (zero + pairwise_sum (List.length l)
            (map (fun x => if PrimFloat.is_nan x then zero else x) l))%float.

(** [df[cols].sum(axis=1)] on columns of float64, given row by row. The
    values of a frame lie column by column in memory, and numpy then adds
    the columns to the sums of the rows one after the other; when the frame
    has a missing value pandas sums a copy of it that has zeros in their
    place and lies row by row, and numpy sums each row of it, as it does
    the one row of a frame that has no other, on its own. *)
Definition row_sums (block : list (list float)) : list float :=
  if (List.length block =? 1)%nat || existsb (existsb PrimFloat.is_nan) block
  then map np_sum block
  else map series_sum block.

(** One turn of pandas' compensated sum of a group: the running sum and
    its compensation. A missing value is skipped; a compensation that is
    not a number is put back to zero. *)
Definition kahan_step (state : float * float) (val : float) : float * float :=
  let '(sumx, compensation) := state in
  if PrimFloat.is_nan val then state
  else
    let y := (val - compensation)%float in
    let t := (sumx + y)%float in
    let c := (t - sumx - y)%float in
    (t, if PrimFloat.is_nan c then zero else c).

(** The [sum] of a [groupby], for one group. *)
Definition group_sum (l : list float) : float :=
  fst (fold_left kahan_step l (zero, zero)).

(** [float(k)] of a whole number from 0 to 2^63. *)
Definition of_Z (k : Z) : float := PrimFloat.of_uint63 (Uint63.of_Z k).

(** The whole number nearest to [n / d], the even one of two that are
    equally near; [0 <= n] and [0 < d]. *)
Definition nearest_even (n d : Z) : Z :=
  let q := n / d in
  let r := n mod d in
  if 2 * r <? d then q
  else if d <? 2 * r then q + 1
  else if Z.even q then q else q + 1.

(** C's [rint] in the default rounding mode. A float that is not finite,
    a zero and a float whose exponent is not negative are whole already; a
    float [m * 2^e] with [e < 0] goes to the nearest whole number, with its
    sign. *)
Definition rint (x : float) : float :=
  match Prim2SF x with
  | S754_finite s m e =>
      if e <? 0 then
        let k := nearest_even (Zpos m) (2 ^ (- e)) in
        if s then (- of_Z k)%float else of_Z k
      else x
  | _ => x
  end.

(** numpy's [round(2)]: scale by 100, round to an integer, scale back. *)
Definition round2 (x : float) : float := (rint (x * hundred) / hundred)%float.

End Fl.

(** ** Python strings *)

Module Str.

Definition is_space (c : ascii) : bool :=
  let n := N_of_ascii c in
  ((9 <=? n) && (n <=? 13) || (28 <=? n) && (n <=? 32))%N.

Fixpoint lstrip (cs : list ascii) : list ascii :=
  match cs with
  | c :: cs' => if is_space c then lstrip cs' else cs
  | [] => []
  end.

(** [str.strip()] for a string of ASCII characters. *)
Definition strip_chars (cs : list ascii) : list ascii :=
  rev (lstrip (rev (lstrip cs))).

Definition strip (s : string) : string :=
  string_of_list_ascii (strip_chars (list_ascii_of_string s)).

Definition upper_char (c : ascii) : ascii :=
  let n := N_of_ascii c in
  if ((97 <=? n) && (n <=? 122))%N then ascii_of_N (n - 32) else c.

(** [str.upper()] for a string of ASCII characters. *)
Fixpoint upper (s : string) : string :=
  match s with
  | EmptyString => EmptyString
  | String c s' => String (upper_char c) (upper s')
  end.

(** [str.split(sep)] for a one-character separator. *)
Fixpoint split (sep : ascii) (s : string) : list string :=
  match s with
  | EmptyString => [EmptyString]
  | String c s' =>
      if Ascii.eqb c sep then EmptyString :: split sep s'
      else match split sep s' with
           | w :: ws => String c w :: ws
           | [] => [String c EmptyString]
           end
  end.

Definition digit_of (c : ascii) : option Z :=
  let n := N_of_ascii c in
  if ((48 <=? n) && (n <=? 57))%N then Some (Z.of_N n - 48) else None.

(** The digits of a decimal literal: a single underscore may stand between
    two digits. *)
Fixpoint digits_value (acc : Z) (after_digit : bool) (cs : list ascii) : option Z :=
  match cs with
  | [] => if after_digit then Some acc else None
  | c :: cs' =>
      match digit_of c with
      | Some d => digits_value (10 * acc + d) true cs'
      | None =>
          if Ascii.eqb c "_" && after_digit then digits_value acc false cs'
          else None
      end
  end.

(** The white space that [int] skips at both ends of a string of ASCII
    characters: blank, tab, line feed, vertical tab, form feed and
    carriage return. The separators 0x1C to 0x1F, which [strip] takes for
    white space, are not among it. *)
Definition is_int_space (c : ascii) : bool :=
  let n := N_of_ascii c in
  ((9 <=? n) && (n <=? 13) || (n =? 32))%N.

Fixpoint int_lstrip (cs : list ascii) : list ascii :=
  match cs with
  | c :: cs' => if is_int_space c then int_lstrip cs' else cs
  | [] => []
  end.

Definition int_strip (cs : list ascii) : list ascii :=
  rev (int_lstrip (rev (int_lstrip cs))).

(** [int(s)] for a string of ASCII characters: surrounding white space, an
    optional sign, decimal digits. Anything else is a [ValueError]. *)
Definition int (s : string) : result Z :=
  let body := int_strip (list_ascii_of_string s) in
  let '(neg, ds) :=
    match body with
    | c :: cs =>
        if Ascii.eqb c "-" then (true, cs)
        else if Ascii.eqb c "+" then (false, cs)
        else (false, body)
    | [] => (false, body)
    end in
  match digits_value 0 false ds with
  | Some v => Ok (if neg then - v else v)
  | None => Err ValueError
  end.

End Str.

(** ** Durations *)

(** A [timedelta] of whole minutes, as its number of minutes. *)
Definition timedelta : Type := Z.

Definition max_days : Z := 999999999.

(** [timedelta(hours=h, minutes=m)]: an [OverflowError] beyond a magnitude
    of [max_days] days. *)
Definition timedelta_hm (h m : Z) : result timedelta :=
  let total := 60 * h + m in
  let days := total / 1440 in
  if (- max_days <=? days) && (days <=? max_days) then Ok total
  else Err OverflowError.

(** [timedelta(hours=24)] *)
Definition day_end : timedelta := 1440.

(** ** Rate bands *)

(** A band of a rate plan, as the YAML file gives it. *)
Record band : Type := Band {
  start : string;
  end_ : string;
  rate : float
}.

(** ** Calendar dates *)

Record date : Type := Date { year : Z; month : Z; day : Z }.

(** Days since 1970-01-01 in the proleptic Gregorian calendar. *)
Definition days_from_civil (d : date) : Z :=
  let y := if month d <=? 2 then year d - 1 else year d in
  let era := y / 400 in
  let yoe := y - era * 400 in
  let mp := (month d + 9) mod 12 in
  let doy := (153 * mp + 2) / 5 + day d - 1 in
  let doe := yoe * 365 + yoe / 4 - yoe / 100 + doy in
  era * 146097 + doe - 719468.

(** [date.weekday()]: Monday is 0, Sunday is 6. *)
Definition weekday (d : date) : Z := (days_from_civil d + 3) mod 7.

Definition month_key : Type := (Z * Z)%type.

Definition month_of (d : date) : month_key := (year d, month d).

Definition month_eqb (a b : month_key) : bool :=
  (fst a =? fst b) && (snd a =? snd b).

Definition month_ltb (a b : month_key) : bool :=
  (fst a <? fst b) || ((fst a =? fst b) && (snd a <? snd b)).

Definition date_eqb (a b : date) : bool :=
  (year a =? year b) && (month a =? month b) && (day a =? day b).

Definition date_ltb (a b : date) : bool :=
  month_ltb (month_of a) (month_of b)
  || (month_eqb (month_of a) (month_of b) && (day a <? day b)).

(** [groupby]: the groups in ascending key order, each with its members in
    their original order. *)
Section GroupBy.
Context {K A : Type} (eqb ltb : K -> K -> bool).

Fixpoint group_insert (k : K) (a : A) (gs : list (K * list A)) : list (K * list A) :=
  match gs with
  | [] => [(k, [a])]
  | (k', members) :: gs' =>
      if eqb k k' then (k', members ++ [a]) :: gs'
      else if ltb k k' then (k, [a]) :: gs
      else (k', members) :: group_insert k a gs'
  end.

Definition groupby (rows : list (K * A)) : list (K * list A) :=
  fold_left (fun gs r => group_insert (fst r) (snd r) gs) rows [].
End GroupBy.

Definition digit_char (d : Z) : ascii :=
  match d with
  | 0 => "0" | 1 => "1" | 2 => "2" | 3 => "3" | 4 => "4"
  | 5 => "5" | 6 => "6" | 7 => "7" | 8 => "8" | _ => "9"
  end%char.

(** [strftime("%Y-%m")] of a month. *)
Definition strftime_Ym (k : month_key) : string :=
  let y := fst k in
  let m := snd k in
  String (digit_char (y / 1000 mod 10))
    (String (digit_char (y / 100 mod 10))
      (String (digit_char (y / 10 mod 10))
        (String (digit_char (y mod 10))
          (String "-"
            (String (digit_char (m / 10 mod 10))
              (String (digit_char (m mod 10)) EmptyString)))))).

(** ** Console and file output *)

(** What a run leaves behind, in order: the summary printed for a plan, and
    the table written to the output file. *)
Inductive event (R : Type) : Type :=
| Printed (plan_title : string) (total : R)
| Saved (table : list R).

Arguments Printed {R} plan_title total.
Arguments Saved {R} table.

(** A run: the events so far, and a value or the exception that ended it. *)
Definition run (R A : Type) : Type := (list (event R) * result A)%type.

Definition ret {R A : Type} (a : A) : run R A := ([], Ok a).

Definition lift {R A : Type} (r : result A) : run R A := ([], r).

Definition emit {R : Type} (e : event R) : run R unit := ([e], Ok tt).

Definition run_bind {R A B : Type} (m : run R A) (k : A -> run R B) : run R B :=
  match m with
  | (t, Ok a) => let '(t', r) := k a in (t ++ t', r)
  | (t, Err e) => (t, Err e)
  end.

Notation "x <~ m ;; k" := (run_bind m (fun x => k))
  (at level 61, m at next level, right associativity).

(** The band tables of a plan: [bands] and the band part of [export_rates]. *)
Record band_table : Type := BandTable {
  weekday_bands : option (list band);
  weekend_bands : option (list band)
}.

(** A mapping read from YAML is true in a condition when it has a key. *)
Definition band_table_truthy (t : band_table) : bool :=
  match weekday_bands t, weekend_bands t with
  | None, None => false
  | _, _ => true
  end.

(** [bands["weekend"] if is_weekend else bands["weekday"]] *)
Definition band_table_item (t : band_table) (is_weekend : bool) : result (list band) :=
  match (if is_weekend then weekend_bands t else weekday_bands t) with
  | Some l => Ok l
  | None => Err KeyError
  end.

(** [day.weekday() >= 5] *)
Definition is_weekend_day (d : date) : bool := 5 <=? weekday d.

(** * eip13a.py: readings with an import/export flag *)

Module Eip13a.

Definition parse_time_str (time_str : string) : result timedelta :=
  match Str.split ":" time_str with
  | [h; m] =>
      hours <- Str.int h ;;
      minutes <- Str.int m ;;
      timedelta_hm hours minutes
  | _ => Err ValueError
  end.

(** Cost of one interval: the bands are resolved one by one while the list
    is scanned, and the scan stops at the first band that holds the
    interval. *)
Fixpoint calculate_band_cost (kwh : float) (interval_time : timedelta)
    (bands : list band) : result float :=
  match bands with
  | [] => Ok Fl.zero
  | b :: bands' =>
      start_td <- parse_time_str (start b) ;;
      end_td <- parse_time_str (end_ b) ;;
      let end_td := if end_td =? 0 then day_end else end_td in
      if (start_td <=? interval_time) && (interval_time <? end_td)
      then Ok (kwh * rate b)%float
      else calculate_band_cost kwh interval_time bands'
  end.

Record timestamp : Type := Timestamp {
  ts_date : date;
  ts_hour : Z;
  ts_minute : Z
}.

(** What [pd.read_csv] takes a cell for when it settles the type of a
    column: no value (an empty cell), a number, a boolean, or text. *)
Inductive cell_kind : Type := NoValue | Number | Boolean | Text.

(** A row of an EIEP13A file. The text columns are kept as text, the text
    of a cell without a value being empty; the time columns hold what
    [pd.to_datetime(..., errors="coerce")] makes of the stripped cell
    ([None] is NaT) and [raw_kwh] what [pd.to_numeric(..., errors="coerce")]
    makes of the cell (NaN when it does not parse). The four columns that
    the program reads through [.str] come with what [pd.read_csv] takes
    each cell for. *)
Record raw_row : Type := RawRow {
  raw_rec_type : string;
  raw_read_start : option timestamp;
  raw_read_end : option timestamp;
  raw_energy_flow_direction : string;
  raw_kwh : float;
  rec_type_kind : cell_kind;
  read_start_kind : cell_kind;
  read_end_kind : cell_kind;
  energy_flow_direction_kind : cell_kind
}.

Definition is_kind (k k' : cell_kind) : bool :=
  match k, k' with
  | NoValue, NoValue | Number, Number | Boolean, Boolean | Text, Text => true
  | _, _ => false
  end.

(** The column that [pd.read_csv] makes of the cells is a column of text
    (of objects that are strings, or NaN where a cell has no value): so it
    is for a file that has no rows, and for cells of which one is text, or
    one a number and another a boolean. Cells that are all numbers, all
    booleans or all without a value, alone or with cells without a value,
    make a column of numbers or of booleans. *)
Definition text_column (kinds : list cell_kind) : bool :=
  match kinds with
  | [] => true
  | _ :: _ =>
      existsb (is_kind Text) kinds
      || (existsb (is_kind Number) kinds && existsb (is_kind Boolean) kinds)
  end.

(** [df[column].str]: an [AttributeError] unless the column is text. *)
Definition str_accessor (df : list raw_row) (kind : raw_row -> cell_kind) : result unit :=
  if text_column (map kind df) then Ok tt else Err AttributeError.

(** [fillna(0.0)] *)
Definition fillna0 (x : float) : float :=
  if PrimFloat.is_nan x then Fl.zero else x.

Record reading : Type := Reading {
  read_start : option timestamp;
  read_end : option timestamp;
  energy_flow_direction : string;
  kwh : float
}.

(** [df["rec_type"].str.strip().str.upper() == "DET"] *)
Definition is_det (r : raw_row) : bool :=
  String.eqb (Str.upper (Str.strip (raw_rec_type r))) "DET".

(** The columns of a detail record once they are converted. *)
Definition cleaned (r : raw_row) : reading :=
  {| read_start := raw_read_start r;
     read_end := raw_read_end r;
     energy_flow_direction := Str.upper (Str.strip (raw_energy_flow_direction r));
     kwh := fillna0 (raw_kwh r) |}.

(** The type of a column is that of the whole file: filtering the rows
    does not change it. *)
Definition load_eiep13a (csvfile : list raw_row) : result (list reading) :=
  _ <- str_accessor csvfile rec_type_kind ;;
  let df := filter is_det csvfile in
  _ <- str_accessor csvfile read_start_kind ;;
  _ <- str_accessor csvfile read_end_kind ;;
  _ <- str_accessor csvfile energy_flow_direction_kind ;;
  Ok (map cleaned df).

(** A row of [df_all] once the derived columns are there. *)
Record interval : Type := Interval {
  i_date : date;
  interval_td : timedelta;
  direction : string;
  i_kwh : float
}.

(** The derived columns of one reading. A reading without a start time has
    no minute of the day, and [timedelta(minutes=nan)] is a [ValueError]. *)
Definition derive (r : reading) : result interval :=
  match read_start r with
  | Some t =>
      Ok {| i_date := ts_date t;
            interval_td := ts_hour t * 60 + ts_minute t;
            direction := energy_flow_direction r;
            i_kwh := kwh r |}
  | None => Err ValueError
  end.

Record export_table : Type := ExportTable {
  export_weekday : option (list band);
  export_weekend : option (list band);
  export_flat : option float
}.

Definition export_truthy (e : export_table) : bool :=
  match export_weekday e, export_weekend e, export_flat e with
  | None, None, None => false
  | _, _, _ => true
  end.

(** [export_rates.get("weekend" if is_weekend else "weekday")] *)
Definition export_get (e : export_table) (is_weekend : bool) : option (list band) :=
  if is_weekend then export_weekend e else export_weekday e.

Record plan : Type := Plan {
  title : option string;
  daily_rate : option float;
  per_kwh_rate : option float;
  bands : option band_table;
  fixed_discount : option float;
  export_rates : option export_table
}.

Definition get_title (p : plan) : string :=
  match title p with Some t => t | None => "Unknown" end.

Definition get_daily_rate (p : plan) : float :=
  match daily_rate p with Some r => r | None => Fl.zero end.

Definition get_fixed_discount (p : plan) : float :=
  match fixed_discount p with Some r => r | None => Fl.zero end.

(** [if bands:] *)
Definition has_bands (p : plan) : option band_table :=
  match bands p with
  | Some t => if band_table_truthy t then Some t else None
  | None => None
  end.

(** [if export_rates:] *)
Definition has_export_rates (p : plan) : option export_table :=
  match export_rates p with
  | Some e => if export_truthy e then Some e else None
  | None => None
  end.

(** What an import adds to [imports]. *)
Definition import_cost (p : plan) (is_weekend : bool) (iv : interval) : result float :=
  match has_bands p with
  | Some t =>
      applicable <- band_table_item t is_weekend ;;
      calculate_band_cost (i_kwh iv) (interval_td iv) applicable
  | None =>
      let rate := match per_kwh_rate p with Some r => r | None => Fl.zero end in
      Ok (i_kwh iv * rate)%float
  end.

(** What an export adds to [exports]; [None] when exports are ignored. *)
Definition export_credit (p : plan) (is_weekend : bool) (iv : interval)
    : result (option float) :=
  match has_export_rates p with
  | Some e =>
      match export_get e is_weekend with
      | Some (b :: bs) =>
          c <- calculate_band_cost (i_kwh iv) (interval_td iv) (b :: bs) ;;
          Ok (Some c)
      | _ =>
          let rate := match export_flat e with Some r => r | None => Fl.zero end in
          Ok (Some (i_kwh iv * rate)%float)
      end
  | None => Ok None
  end.

(** One turn of the loop over the readings of a day, on [(imports, exports)]. *)
Definition reading_step (p : plan) (is_weekend : bool) (acc : float * float)
    (iv : interval) : result (float * float) :=
  let '(imports, exports) := acc in
  if String.eqb (direction iv) "I" then
    c <- import_cost p is_weekend iv ;;
    Ok ((imports + c)%float, exports)
  else if String.eqb (direction iv) "X" then
    oc <- export_credit p is_weekend iv ;;
    match oc with
    | Some c => Ok (imports, (exports + c)%float)
    | None => Ok (imports, exports)
    end
  else Ok (imports, exports).

Fixpoint day_totals (p : plan) (is_weekend : bool) (acc : float * float)
    (group : list interval) : result (float * float) :=
  match group with
  | [] => Ok acc
  | iv :: group' =>
      acc' <- reading_step p is_weekend acc iv ;;
      day_totals p is_weekend acc' group'
  end.

Record daily_result : Type := DailyResult {
  dr_date : date;
  daily_cost : float;
  dr_imports : float;
  dr_exports : float
}.

Definition day_result (p : plan) (d : date) (group : list interval) : result daily_result :=
  let is_weekend := is_weekend_day d in
  totals <- day_totals p is_weekend (Fl.zero, Fl.zero) group ;;
  let '(imports, exports) := totals in
  Ok {| dr_date := d;
        daily_cost := (get_daily_rate p + imports - exports)%float;
        dr_imports := imports;
        dr_exports := exports |}.

Record row : Type := Row {
  Title : string;
  Month : string;
  Days_in_month : Z;
  Fixed_cost : float;
  Variable_cost : float;
  Credits : float;
  Discounts : float;
  Total_cost : float;
  totalcostnotadjusted : float
}.

(** The row of one month, from the daily results of that month. *)
Definition month_row (p : plan) (k : month_key) (days : list daily_result) : row :=
  let fixed := (get_daily_rate p * Fl.of_count (List.length days))%float in
  let variable := Fl.group_sum (map dr_imports days) in
  let credits := Fl.group_sum (map dr_exports days) in
  let totalcost := (fixed + variable)%float in
  let total := (fixed + variable - credits)%float in
  let discount := get_fixed_discount p in
  {| Title := get_title p;
     Month := strftime_Ym k;
     Days_in_month := Z.of_nat (List.length days);
     Fixed_cost := fixed;
     Variable_cost := variable;
     Credits := credits;
     Discounts := if Fl.truthy discount
                  then (total * (discount / Fl.hundred))%float else Fl.zero;
     Total_cost := if Fl.truthy discount
                   then (total * (1 - discount / Fl.hundred))%float else total;
     totalcostnotadjusted := totalcost |}.

(** The TOTAL row. A table of no month rows has columns of objects: its
    date column has no [.dt], and the sum of such a column is the int 0,
    which has no [round]: an [AttributeError]. *)
Definition total_row (p : plan) (monthly : list row) : result row :=
  match monthly with
  | [] => Err AttributeError
  | _ :: _ =>
      Ok {| Title := get_title p;
            Month := "TOTAL";
            Days_in_month := fold_left Z.add (map Days_in_month monthly) 0;
            Fixed_cost := Fl.round2 (Fl.np_sum (map Fixed_cost monthly));
            Variable_cost := Fl.round2 (Fl.np_sum (map Variable_cost monthly));
            Credits := Fl.round2 (Fl.np_sum (map Credits monthly));
            Discounts := Fl.round2 (Fl.np_sum (map Discounts monthly));
            Total_cost := Fl.round2 (Fl.np_sum (map Total_cost monthly));
            totalcostnotadjusted :=
              Fl.round2 (Fl.np_sum (map totalcostnotadjusted monthly)) |}
  end.

(** The daily results of a plan: one per date of [df_all], in date order. *)
Definition daily_results (p : plan) (df_all : list interval) : result (list daily_result) :=
  mapM (fun g => day_result p (fst g) (snd g))
       (groupby date_eqb date_ltb (map (fun iv => (i_date iv, iv)) df_all)).

(** The month rows of a plan, in month order. *)
Definition monthly_rows (p : plan) (df_all : list interval) : result (list row) :=
  days <- daily_results p df_all ;;
  Ok (map (fun g => month_row p (fst g) (snd g))
          (groupby month_eqb month_ltb
                   (map (fun d => (month_of (dr_date d), d)) days))).

(** The table of a plan: its month rows, then its TOTAL row. *)
Definition plan_table (p : plan) (df_all : list interval) : result (list row) :=
  monthly <- monthly_rows p df_all ;;
  total <- total_row p monthly ;;
  Ok (monthly ++ [total]).

(** The loop over the plans; [all_results] grows at its end. The table of
    a plan is appended twice, as the body of the loop does. *)
Fixpoint plan_loop (rate_plans : list plan) (df_all : list interval)
    (all_results : list (list row)) : run row (list (list row)) :=
  match rate_plans with
  | [] => ret all_results
  | p :: rest =>
      monthly <~ lift (monthly_rows p df_all) ;;
      total <~ lift (total_row p monthly) ;;
      let monthly := monthly ++ [total] in
      _ <~ emit (Printed (get_title p) total) ;;
      let all_results := all_results ++ [monthly] in
      let all_results := all_results ++ [monthly] in
      plan_loop rest df_all all_results
  end.

(** [pd.concat]: a [ValueError] when there is nothing to concatenate. *)
Definition pd_concat {A : Type} (frames : list (list A)) : result (list A) :=
  match frames with
  | [] => Err ValueError
  | _ => Ok (List.concat frames)
  end.

Definition main (csvfiles : list (list raw_row)) (rate_plans : list plan)
    : run row unit :=
  frames <~ lift (mapM load_eiep13a csvfiles) ;;
  loaded <~ lift (pd_concat frames) ;;
  df_all <~ lift (mapM derive loaded) ;;
  all_results <~ plan_loop rate_plans df_all [] ;;
  final_df <~ lift (pd_concat all_results) ;;
  emit (Saved final_df).

End Eip13a.

(** * calculate.py: one row per day, one column per half hour *)

Module Calculate.

Definition parse_time_str (time_str : string) : result timedelta :=
  match Str.split ":" time_str with
  | [h; m] =>
      hours <- Str.int h ;;
      minutes <- Str.int m ;;
      timedelta_hm hours minutes
  | _ => Err ValueError
  end.

(** ** The data frame *)

(** A cell as [pd.read_csv] leaves it, by what the two converters make of
    it: [pd.to_datetime(..., errors="coerce")] ([None] is NaT) and
    [pd.to_numeric(..., errors="coerce")] (NaN when it does not parse). *)
Record cell : Type := Cell {
  as_datetime : option date;
  as_number : float
}.

Inductive value : Type :=
| Raw (c : cell)
| Time (t : option date)
| Num (f : float).

(** The frame [df]: its column names and its rows, a value per column.
    The loop over the plans writes to it. *)
Record frame : Type := Frame {
  columns : list string;
  data : list (list value)
}.

Fixpoint index_of (name : string) (names : list string) : option nat :=
  match names with
  | [] => None
  | n :: names' =>
      if String.eqb n name then Some O
      else match index_of name names' with
           | Some i => Some (S i)
           | None => None
           end
  end.

(** [name in df.columns] *)
Definition has_column (df : frame) (name : string) : bool :=
  match index_of name (columns df) with Some _ => true | None => false end.

(** A cell that the file does not have: [pd.read_csv] fills a short line
    with NaN. *)
Definition missing : value := Raw {| as_datetime := None; as_number := PrimFloat.nan |}.

(** A value as [pd.read_csv] leaves it. *)
Definition is_raw (v : value) : Prop := exists c, v = Raw c.

(** [row[name]] *)
Definition row_get (df : frame) (r : list value) (name : string) : result value :=
  match index_of name (columns df) with
  | Some i => Ok (nth i r missing)
  | None => Err KeyError
  end.

Fixpoint set_nth {A : Type} (i : nat) (a : A) (l : list A) : list A :=
  match l, i with
  | [], _ => []
  | _ :: l', O => a :: l'
  | x :: l', S i' => x :: set_nth i' a l'
  end.

(** A row with [v] under the column [name]: in place of the value it has
    there, or as a new last value when the frame has no such column. *)
Definition with_value (df : frame) (name : string) (r : list value) (v : value)
    : list value :=
  match index_of name (columns df) with
  | Some i => set_nth i v r
  | None => r ++ [v]
  end.

(** [df[name] = values]: the column is replaced, or added as the last. *)
Definition set_column (df : frame) (name : string) (values : list value) : frame :=
  {| columns := match index_of name (columns df) with
                | Some _ => columns df
                | None => columns df ++ [name]
                end;
     data := map (fun rv => with_value df name (fst rv) (snd rv))
                 (combine (data df) values) |}.

(** Every row of the frame has a value for every column. *)
Definition rect (df : frame) : Prop :=
  forall r, In r (data df) -> List.length r = List.length (columns df).

(** [df[name]] *)
Definition get_column (df : frame) (name : string) : result (list value) :=
  mapM (fun r => row_get df r name) (data df).

(** A column of a frame that was read from a file holds raw cells. A column
    that one of the converters has already rewritten would be reinterpreted
    by pandas; no run gets past its first plan on such a frame, and the
    embedding ends it here. *)
Definition to_datetime (v : value) : result value :=
  match v with
  | Raw c => Ok (Time (as_datetime c))
  | Time t => Ok (Time t)
  | Num _ => Err TypeError
  end.

Definition to_numeric (v : value) : result value :=
  match v with
  | Raw c => Ok (Num (as_number c))
  | Num f => Ok (Num f)
  | Time _ => Err TypeError
  end.

(** [df[name] = convert(df[name])] *)
Definition convert_column (conv : value -> result value) (df : frame) (name : string)
    : result frame :=
  col <- get_column df name ;;
  col' <- mapM conv col ;;
  Ok (set_column df name col').

Fixpoint convert_columns (conv : value -> result value) (df : frame)
    (names : list string) : result frame :=
  match names with
  | [] => Ok df
  | n :: names' =>
      df' <- convert_column conv df n ;;
      convert_columns conv df' names'
  end.

(** A value read as a number of kWh. *)
Definition number_of (v : value) : result float :=
  match v with
  | Num f => Ok f
  | _ => Err TypeError
  end.

(** [row[interval_cols]] *)
Definition row_intervals (df : frame) (interval_cols : list string) (r : list value)
    : result (list float) :=
  mapM (fun c => v <- row_get df r c ;; number_of v) interval_cols.

(** ** Rate plans *)

Record plan : Type := Plan {
  title : option string;
  daily_rate : option float;
  per_kwh_rate : option float;
  bands : option band_table
}.

Definition get_title (p : plan) : string :=
  match title p with Some t => t | None => "Unknown" end.

Definition get_daily_rate (p : plan) : float :=
  match daily_rate p with Some r => r | None => Fl.zero end.

(** [if bands:] *)
Definition has_bands (p : plan) : option band_table :=
  match bands p with
  | Some t => if band_table_truthy t then Some t else None
  | None => None
  end.

(** ** Band costs *)

Definition band_range : Type := (timedelta * timedelta * float)%type.

Definition resolve_band (b : band) : result band_range :=
  start_td <- parse_time_str (start b) ;;
  end_td <- parse_time_str (end_ b) ;;
  Ok (start_td, end_td, rate b).

(** The loop over the bands for one interval: the total after it. *)
Fixpoint band_step (total_cost kwh : float) (interval_time : timedelta)
    (band_ranges : list band_range) : float :=
  match band_ranges with
  | [] => total_cost
  | (start_td, end_td, r) :: rest =>
      let end_td := if end_td =? 0 then day_end else end_td in
      if (start_td <=? interval_time) && (interval_time <? end_td)
      then (total_cost + kwh * r)%float
      else band_step total_cost kwh interval_time rest
  end.

Definition calculate_band_cost (row : list float) (interval_times : list timedelta)
    (bands : band_table) (is_weekend : bool) : result float :=
  applicable_bands <- band_table_item bands is_weekend ;;
  band_ranges <- mapM resolve_band applicable_bands ;;
  Ok (fold_left (fun total_cost it => band_step total_cost (snd it) (fst it) band_ranges)
                (combine interval_times row) Fl.zero).

(** [[timedelta(minutes=30 * i) for i in range(n)]] *)
Definition interval_times_of (n : nat) : list timedelta :=
  map (fun i => 30 * Z.of_nat i) (seq 0 n).

(** ** The run *)

Record config : Type := Config {
  date_column : string;
  interval_columns : list string
}.

(** [day.weekday() >= 5] for the value of the date column; the weekday of
    NaT is NaN, which is not at least 5. *)
Definition is_weekend_of (v : value) : result bool :=
  match v with
  | Time (Some d) => Ok (is_weekend_day d)
  | Time None => Ok false
  | _ => Err AttributeError
  end.

(** The body of the loop over the days, for the row of one day. *)
Definition daily_cost_of (cfg : config) (df : frame) (p : plan) (r : list value)
    : result float :=
  day <- row_get df r (date_column cfg) ;;
  is_weekend <- is_weekend_of day ;;
  match has_bands p with
  | Some t =>
      quantities <- row_intervals df (interval_columns cfg) r ;;
      daily_cost <- calculate_band_cost quantities
                      (interval_times_of (List.length (interval_columns cfg)))
                      t is_weekend ;;
      Ok (daily_cost + get_daily_rate p)%float
  | None =>
      quantities <- row_intervals df (interval_columns cfg) r ;;
      let kwh := Fl.series_sum quantities in
      let rate := match per_kwh_rate p with Some x => x | None => Fl.zero end in
      Ok (get_daily_rate p + kwh * rate)%float
  end.

Record row : Type := Row {
  Title : string;
  Month : string;
  Monthly_kWh : float;
  Days_in_month : Z;
  Fixed_cost : float;
  Variable_cost : float;
  Total_cost : float
}.

(** [df[date_col].dt.to_period("M")] for one value; NaT has no period. *)
Definition period_of (v : value) : result (option month_key) :=
  match v with
  | Time (Some d) => Ok (Some (month_of d))
  | Time None => Ok None
  | _ => Err AttributeError
  end.

(** The row of one month, from the [(daily_kwh, daily_cost)] of its days. *)
Definition month_row (p : plan) (k : month_key) (days : list (float * float)) : row :=
  let n := Fl.of_count (List.length days) in
  let fixed := (get_daily_rate p * n)%float in
  let variable := (Fl.np_sum (map snd days) - get_daily_rate p * n)%float in
  {| Title := get_title p;
     Month := strftime_Ym k;
     Monthly_kWh := Fl.group_sum (map fst days);
     Days_in_month := Z.of_nat (List.length days);
     Fixed_cost := fixed;
     Variable_cost := variable;
     Total_cost := (fixed + variable)%float |}.

(** The TOTAL row. In a table of no month rows the columns that the
    lambdas fill are columns of objects; the sum of such a column is the
    int 0, which has no [round]: an [AttributeError]. *)
Definition total_row (p : plan) (monthly : list row) : result row :=
  match monthly with
  | [] => Err AttributeError
  | _ :: _ =>
      Ok {| Title := get_title p;
            Month := "TOTAL";
            Monthly_kWh := Fl.round2 (Fl.np_sum (map Monthly_kWh monthly));
            Days_in_month := fold_left Z.add (map Days_in_month monthly) 0;
            Fixed_cost := Fl.round2 (Fl.np_sum (map Fixed_cost monthly));
            Variable_cost := Fl.round2 (Fl.np_sum (map Variable_cost monthly));
            Total_cost := Fl.round2 (Fl.np_sum (map Total_cost monthly)) |}
  end.

(** The rows of the frame that have a month, each under its month. *)
Fixpoint keyed {A : Type} (keys : list (option month_key)) (items : list A)
    : list (month_key * A) :=
  match keys, items with
  | Some k :: keys', a :: items' => (k, a) :: keyed keys' items'
  | None :: keys', _ :: items' => keyed keys' items'
  | _, _ => []
  end.

(** The body of the loop over the plans, up to the month rows: the frame
    it leaves, with its two working columns written, and the month rows. *)
Definition plan_step (cfg : config) (df : frame) (p : plan)
    : result (frame * list row) :=
  daily_costs <- mapM (daily_cost_of cfg df p) (data df) ;;
  quantities <- mapM (row_intervals df (interval_columns cfg)) (data df) ;;
  let daily_kwh := Fl.row_sums quantities in
  let df := set_column df "daily_kwh" (map Num daily_kwh) in
  let df := set_column df "daily_cost" (map Num daily_costs) in
  dates <- get_column df (date_column cfg) ;;
  periods <- mapM period_of dates ;;
  kwh_col <- get_column df "daily_kwh" ;;
  kwh_col <- mapM number_of kwh_col ;;
  cost_col <- get_column df "daily_cost" ;;
  cost_col <- mapM number_of cost_col ;;
  let groups := groupby month_eqb month_ltb (keyed periods (combine kwh_col cost_col)) in
  Ok (df, map (fun g => month_row p (fst g) (snd g)) groups).

(** The two working columns the loop over the plans writes to the frame
    are not the configured columns. *)
Definition working_columns_free (cfg : config) : Prop :=
  date_column cfg <> "daily_kwh" /\ date_column cfg <> "daily_cost"
  /\ ~ In "daily_kwh" (interval_columns cfg)
  /\ ~ In "daily_cost" (interval_columns cfg).

(** The table of a plan on a frame: its month rows, then its TOTAL row. *)
Definition plan_table (cfg : config) (df : frame) (p : plan) : result (list row) :=
  st <- plan_step cfg df p ;;
  total <- total_row p (snd st) ;;
  Ok (snd st ++ [total]).

Fixpoint plan_loop (cfg : config) (rate_plans : list plan) (df : frame)
    (all_results : list (list row)) : run row (list (list row)) :=
  match rate_plans with
  | [] => ret all_results
  | p :: rest =>
      st <~ lift (plan_step cfg df p) ;;
      total <~ lift (total_row p (snd st)) ;;
      let monthly := snd st ++ [total] in
      _ <~ emit (Printed (get_title p) total) ;;
      plan_loop cfg rest (fst st) (all_results ++ [monthly])
  end.

(** [pd.concat]: a [ValueError] when there is nothing to concatenate. *)
Definition pd_concat {A : Type} (frames : list (list A)) : result (list A) :=
  match frames with
  | [] => Err ValueError
  | _ => Ok (List.concat frames)
  end.

(** The frame once the date column and the interval columns are checked
    and converted. *)
Definition load (cfg : config) (csv : frame) : result frame :=
  if negb (has_column csv (date_column cfg)) then Err ValueError
  else
    df <- convert_column to_datetime csv (date_column cfg) ;;
    match filter (fun c => negb (has_column df c)) (interval_columns cfg) with
    | _ :: _ => Err ValueError
    | [] => convert_columns to_numeric df (interval_columns cfg)
    end.

(** A CSV file: its header line and the cells of its other lines. *)
Record csv_file : Type := CsvFile {
  header : list string;
  records : list (list cell)
}.

(** The number of cells the parser expects in a line: that of the header,
    or that of the first line under it when this line has more. *)
Definition expected_fields (f : csv_file) : nat :=
  match records f with
  | [] => List.length (header f)
  | first :: _ => Nat.max (List.length (header f)) (List.length first)
  end.

(** A line of the file: a short line is filled with NaN, a line with more
    cells than are expected is a [ParserError], which is a [ValueError]. *)
Definition read_line (expected : nat) (line : list cell) : result (list value) :=
  if (expected <? List.length line)%nat then Err ValueError
  else Ok (map Raw line ++ repeat missing (expected - List.length line)).

(** [pd.read_csv]: when the first line under the header has more cells
    than the header has names, its leading cells, as many as it has too
    many, are the index of the frame in every line, and the names of the
    header are those of the cells after them. *)
Definition read_csv (f : csv_file) : result frame :=
  let leading := (expected_fields f - List.length (header f))%nat in
  rows <- mapM (read_line (expected_fields f)) (records f) ;;
  Ok {| columns := header f; data := map (skipn leading) rows |}.

Definition main (cfg : config) (csvfile : csv_file) (rate_plans : list plan)
    : run row unit :=
  df <~ lift (read_csv csvfile) ;;
  df <~ lift (load cfg df) ;;
  all_results <~ plan_loop cfg rate_plans df [] ;;
  final_df <~ lift (pd_concat all_results) ;;
  emit (Saved final_df).

End Calculate.

(** * The specification's vocabulary *)

Module Spec.

(** The end of a band's window: 24 hours for an end that resolves to zero. *)
Definition window_end (end_td : timedelta) : timedelta :=
  if end_td =? 0 then day_end else end_td.

(** [t] lies in the half-open window of a resolved band. *)
Definition in_window (t : timedelta) (r : Calculate.band_range) : bool :=
  let '(start_td, end_td, _) := r in
  (start_td <=? t) && (t <? window_end end_td).

(** The first band, in list order, whose window holds [t]. *)
Definition first_band (t : timedelta) (ranges : list Calculate.band_range)
    : option Calculate.band_range :=
  find (in_window t) ranges.

(** What the Band Cost Evaluator is to return. *)
Definition evaluate (q : float) (t : timedelta) (ranges : list Calculate.band_range)
    : float :=
  match first_band t ranges with
  | Some (_, _, r) => (q * r)%float
  | None => Fl.zero
  end.


(** The month rows of a plan as a function of a frame that is only read:
    the costs and the kWh of the days are kept aside, not written to the
    frame. *)
Definition wide_month_rows (cfg : Calculate.config) (df : Calculate.frame)
    (p : Calculate.plan) : result (list Calculate.row) :=
  daily_costs <- mapM (Calculate.daily_cost_of cfg df p) (Calculate.data df) ;;
  quantities <- mapM (Calculate.row_intervals df (Calculate.interval_columns cfg))
                     (Calculate.data df) ;;
  dates <- Calculate.get_column df (Calculate.date_column cfg) ;;
  periods <- mapM Calculate.period_of dates ;;
  Ok (map (fun g => Calculate.month_row p (fst g) (snd g))
          (groupby month_eqb month_ltb
                   (Calculate.keyed periods
                      (combine (Fl.row_sums quantities) daily_costs)))).

(** The table of a plan from [wide_month_rows]. *)
Definition wide_table (cfg : Calculate.config) (df : Calculate.frame)
    (p : Calculate.plan) : result (list Calculate.row) :=
  rows <- wide_month_rows cfg df p ;;
  total <- Calculate.total_row p rows ;;
  Ok (rows ++ [total]).

(** [k] is the whole number nearest to [n / d], and the even one when
    [n / d] lies half way between two whole numbers. *)
Definition nearest_whole (n d k : Z) : Prop :=
  2 * Z.abs (n - k * d) <= d
  /\ (2 * Z.abs (n - k * d) = d -> Z.even k = true).

(** [w] is [y] rounded to a whole number. A float that is finite and not a
    zero is [m * 2^e], with its sign, for a whole [m]; it is whole when [e]
    is not negative, and so are the zeros; infinities and NaN stay. *)
Definition whole_of (y w : float) : Prop :=
  match Prim2SF y with
  | S754_finite s m e =>
      if e <? 0 then
        exists k, nearest_whole (Zpos m) (2 ^ (- e)) k
                  /\ w = if s then (- Fl.of_Z k)%float else Fl.of_Z k
      else w = y
  | _ => w = y
  end.

(** [t] is [x] rounded to 2 decimals: the hundredths of [x], rounded to a
    whole number of them, and divided by 100. *)
Definition two_decimals (x t : float) : Prop :=
  exists w, whole_of (x * 100)%float w /\ t = (w / 100)%float.

(** [v] is the sum of a column of the month rows, rounded to 2 decimals. *)
Definition rounded_total {R : Type} (column : R -> float) (monthly : list R) (v : float)
    : Prop :=
  two_decimals (Fl.np_sum (map column monthly)) v.

(** [t] is the TOTAL row of the month rows [monthly], wide format. *)
Definition wide_total_of (monthly : list Calculate.row) (t : Calculate.row) : Prop :=
  Calculate.Month t = "TOTAL"
  /\ rounded_total Calculate.Monthly_kWh monthly (Calculate.Monthly_kWh t)
  /\ Calculate.Days_in_month t = fold_left Z.add (map Calculate.Days_in_month monthly) 0
  /\ rounded_total Calculate.Fixed_cost monthly (Calculate.Fixed_cost t)
  /\ rounded_total Calculate.Variable_cost monthly (Calculate.Variable_cost t)
  /\ rounded_total Calculate.Total_cost monthly (Calculate.Total_cost t).

(** [t] is the TOTAL row of the month rows [monthly], import/export. *)
Definition eiep_total_of (monthly : list Eip13a.row) (t : Eip13a.row) : Prop :=
  Eip13a.Month t = "TOTAL"
  /\ Eip13a.Days_in_month t = fold_left Z.add (map Eip13a.Days_in_month monthly) 0
  /\ rounded_total Eip13a.Fixed_cost monthly (Eip13a.Fixed_cost t)
  /\ rounded_total Eip13a.Variable_cost monthly (Eip13a.Variable_cost t)
  /\ rounded_total Eip13a.Credits monthly (Eip13a.Credits t)
  /\ rounded_total Eip13a.Discounts monthly (Eip13a.Discounts t)
  /\ rounded_total Eip13a.Total_cost monthly (Eip13a.Total_cost t)
  /\ rounded_total Eip13a.totalcostnotadjusted monthly (Eip13a.totalcostnotadjusted t).


(** The four columns of a file that the program reads as text are text. *)
Definition reads_as_text (csvfile : list Eip13a.raw_row) : bool :=
  Eip13a.text_column (map Eip13a.rec_type_kind csvfile)
  && Eip13a.text_column (map Eip13a.read_start_kind csvfile)
  && Eip13a.text_column (map Eip13a.read_end_kind csvfile)
  && Eip13a.text_column (map Eip13a.energy_flow_direction_kind csvfile).

(** The text HH:MM of [h] hours and [m] minutes, two digits each. *)
Definition hhmm (h m : Z) : string :=
  String (digit_char (h / 10 mod 10))
    (String (digit_char (h mod 10))
      (String ":"
        (String (digit_char (m / 10 mod 10))
          (String (digit_char (m mod 10)) EmptyString)))).

(** The number of occurrences of a character in a string. *)
Fixpoint count_char (c : ascii) (s : string) : nat :=
  match s with
  | EmptyString => O
  | String c' s' => if Ascii.eqb c' c then S (count_char c s') else count_char c s'
  end.

(** [parse_time_str (hhmm h m)] is [h] hours and [m] minutes, as a check
    that computes. *)
Definition parses_to (h m : Z) : bool :=
  match Calculate.parse_time_str (hhmm h m) with
  | Ok td => td =? 60 * h + m
  | Err _ => false
  end.

Definition two_digit : list Z := map Z.of_nat (seq 0 100).

(** The rate that applies at [t]: the rate of the first band whose window
    holds [t], if there is one. *)
Definition rate_at (t : timedelta) (ranges : list Calculate.band_range) : option float :=
  match first_band t ranges with
  | Some (_, _, r) => Some r
  | None => None
  end.

(** The windows follow one another from [from] to the end of the day: each
    band starts where the one before it ends, the last one ends at 24:00. *)
Fixpoint covers_from (from : timedelta) (ranges : list Calculate.band_range) : Prop :=
  match ranges with
  | [] => from = day_end
  | (start_td, end_td, _) :: rest =>
      start_td = from /\ from < window_end end_td /\ covers_from (window_end end_td) rest
  end.

(** The title of the plan whose summary an event prints; none for the
    event that saves the table. *)
Definition event_title {R : Type} (e : event R) : option string :=
  match e with
  | Printed plan_title _ => Some plan_title
  | Saved _ => None
  end.

(** The events of a loop over the plans: a summary for each plan that was
    costed, in plan order; all of them unless the loop failed. *)
Definition loop_shape {R A : Type} (titles : list string) (r : run R A) : Prop :=
  map event_title (fst r) = map Some (firstn (List.length (fst r)) titles)
  /\ (forall a, snd r = Ok a -> List.length (fst r) = List.length titles).

(** What a run has printed and saved when it ends, for the titles of its
    plans in order: after a run that succeeds, one summary per plan in plan
    order and then the saved table, which is the last event; after a run
    that fails, summaries only, of the first plans in plan order. *)
Definition trace_shape {R : Type} (titles : list string) (r : run R unit) : Prop :=
  match snd r with
  | Ok _ =>
      exists summaries table,
        fst r = summaries ++ [Saved table]
        /\ map event_title summaries = map Some titles
  | Err _ =>
      map event_title (fst r) = map Some (firstn (List.length (fst r)) titles)
  end.

(** Keys in strictly ascending order. *)
Fixpoint ascending {K : Type} (ltb : K -> K -> bool) (keys : list K) : Prop :=
  match keys with
  | [] => True
  | a :: rest =>
      match rest with
      | b :: _ => ltb a b = true
      | [] => True
      end /\ ascending ltb rest
  end.

(** The number of members of all groups. *)
Definition members_count {K A : Type} (groups : list (K * list A)) : nat :=
  fold_right (fun g n => (List.length (snd g) + n)%nat) O groups.

(** A value of the date column is a date, not NaT. *)
Definition has_date (v : Calculate.value) : bool :=
  match v with
  | Calculate.Time (Some _) => true
  | _ => false
  end.

(** The readings of one direction. *)
Definition of_direction (d : string) (group : list Eip13a.interval) : list Eip13a.interval :=
  filter (fun iv => String.eqb (Eip13a.direction iv) d) group.

(** What a month row says of the readings, whatever the plan: its label,
    its kWh and its number of days. *)
Definition usage (r : Calculate.row) : string * float * Z :=
  (Calculate.Month r, Calculate.Monthly_kWh r, Calculate.Days_in_month r).

End Spec.

(** * Fixtures *)

Module Fixtures.

(** Two overlapping bands: both windows hold 06:30. *)
Definition early : band := {| start := "00:00"; end_ := "07:00"; rate := 0.10%float |}.
Definition late : band := {| start := "06:00"; end_ := "00:00"; rate := 0.25%float |}.

Definition early_range : Calculate.band_range := (0, 420, 0.10%float).
Definition late_range : Calculate.band_range := (360, 0, 0.25%float).

(** A wide-format file of three days, two half-hour columns each; the
    first day of February has a cell that is not a number. *)
Definition num (x : float) : Calculate.cell :=
  {| Calculate.as_datetime := None; Calculate.as_number := x |}.

Definition on (y m d : Z) : Calculate.cell :=
  {| Calculate.as_datetime := Some (Date y m d); Calculate.as_number := PrimFloat.nan |}.

Definition wide_csv : Calculate.csv_file :=
  {| Calculate.header := ["date"; "h0000"; "h0030"];
     Calculate.records :=
       [ [on 2024 1 1; num 4; num 6];
         [on 2024 1 2; num 5; num 5];
         [on 2024 2 1; num PrimFloat.nan; num 5] ] |}.

Definition wide_config : Calculate.config :=
  {| Calculate.date_column := "date";
     Calculate.interval_columns := ["h0000"; "h0030"] |}.

(** The frame of [wide_csv] once its columns are converted. *)
Definition wide_frame : Calculate.frame :=
  {| Calculate.columns := ["date"; "h0000"; "h0030"];
     Calculate.data :=
       [ [Calculate.Time (Some (Date 2024 1 1)); Calculate.Num 4; Calculate.Num 6];
         [Calculate.Time (Some (Date 2024 1 2)); Calculate.Num 5; Calculate.Num 5];
         [Calculate.Time (Some (Date 2024 2 1)); Calculate.Num PrimFloat.nan;
          Calculate.Num 5] ] |}.


Definition nan_day : list Calculate.value :=
  [Calculate.Time (Some (Date 2024 2 1)); Calculate.Num PrimFloat.nan; Calculate.Num 5].

Definition flat_plan : Calculate.plan :=
  {| Calculate.title := Some "Flat";
     Calculate.daily_rate := Some 1%float;
     Calculate.per_kwh_rate := Some 0.30%float;
     Calculate.bands := None |}.

Definition all_day : band := {| start := "00:00"; end_ := "00:00"; rate := 0.25%float |}.

Definition banded_plan : Calculate.plan :=
  {| Calculate.title := Some "Banded";
     Calculate.daily_rate := Some 1%float;
     Calculate.per_kwh_rate := None;
     Calculate.bands :=
       Some {| weekday_bands := Some [all_day]; weekend_bands := Some [all_day] |} |}.

(** An import/export file: one day with an import of 10 kWh and an export
    of 4 kWh, and a record whose direction is neither. *)
Definition at_ (d h m : Z) : option Eip13a.timestamp :=
  Some {| Eip13a.ts_date := Date 2024 1 d; Eip13a.ts_hour := h; Eip13a.ts_minute := m |}.

(** A row all of whose four text cells are text. *)
Definition text_row (rec_type : string) (read_start read_end : option Eip13a.timestamp)
    (energy_flow_direction : string) (kwh : float) : Eip13a.raw_row :=
  {| Eip13a.raw_rec_type := rec_type; Eip13a.raw_read_start := read_start;
     Eip13a.raw_read_end := read_end;
     Eip13a.raw_energy_flow_direction := energy_flow_direction;
     Eip13a.raw_kwh := kwh;
     Eip13a.rec_type_kind := Eip13a.Text; Eip13a.read_start_kind := Eip13a.Text;
     Eip13a.read_end_kind := Eip13a.Text;
     Eip13a.energy_flow_direction_kind := Eip13a.Text |}.

(** A header row: of its cells only the record type has a value. *)
Definition header_row : Eip13a.raw_row :=
  {| Eip13a.raw_rec_type := "HDR"; Eip13a.raw_read_start := None;
     Eip13a.raw_read_end := None; Eip13a.raw_energy_flow_direction := "";
     Eip13a.raw_kwh := PrimFloat.nan;
     Eip13a.rec_type_kind := Eip13a.Text; Eip13a.read_start_kind := Eip13a.NoValue;
     Eip13a.read_end_kind := Eip13a.NoValue;
     Eip13a.energy_flow_direction_kind := Eip13a.NoValue |}.

Definition eiep_csv : list Eip13a.raw_row :=
  [ header_row;
    text_row "DET" (at_ 1 0 0) (at_ 1 0 30) "I" 10;
    text_row "det " (at_ 1 0 30) (at_ 1 1 0) " x" 4 ].

Definition import_10 : Eip13a.interval :=
  {| Eip13a.i_date := Date 2024 1 1; Eip13a.interval_td := 0;
     Eip13a.direction := "I"; Eip13a.i_kwh := 10%float |}.

Definition export_4 : Eip13a.interval :=
  {| Eip13a.i_date := Date 2024 1 1; Eip13a.interval_td := 30;
     Eip13a.direction := "X"; Eip13a.i_kwh := 4%float |}.

Definition stray : Eip13a.interval :=
  {| Eip13a.i_date := Date 2024 1 1; Eip13a.interval_td := 60;
     Eip13a.direction := "Q"; Eip13a.i_kwh := 7%float |}.

Definition stray_raw : Eip13a.raw_row :=
  text_row "DET" (at_ 1 1 0) (at_ 1 1 30) " q " 7.

Definition eiep_frame : list Eip13a.interval := [import_10; export_4].

(** A flat plan with a flat export rate and a discount of 10 percent. *)
Definition solar_plan : Eip13a.plan :=
  {| Eip13a.title := Some "Solar";
     Eip13a.daily_rate := Some 1%float;
     Eip13a.per_kwh_rate := Some 0.30%float;
     Eip13a.bands := None;
     Eip13a.fixed_discount := Some 10%float;
     Eip13a.export_rates :=
       Some {| Eip13a.export_weekday := None; Eip13a.export_weekend := None;
               Eip13a.export_flat := Some 0.08%float |} |}.


(** The row of January 2024 for [solar_plan] on [eiep_frame]. *)
Definition solar_january : Eip13a.row :=
  Eip13a.month_row solar_plan (2024, 1)
    [{| Eip13a.dr_date := Date 2024 1 1; Eip13a.daily_cost := 3.68%float;
        Eip13a.dr_imports := 3%float; Eip13a.dr_exports := 0.32%float |}].

(** The table of [solar_plan] on [eiep_frame]. *)
Definition solar_total : Eip13a.row :=
  {| Eip13a.Title := "Solar";
     Eip13a.Month := "TOTAL";
     Eip13a.Days_in_month := 1;
     Eip13a.Fixed_cost := 1;
     Eip13a.Variable_cost := 3;
     Eip13a.Credits := 0.32;
     Eip13a.Discounts := 0.37;
     Eip13a.Total_cost := 3.31;
     Eip13a.totalcostnotadjusted := 4 |}.

Definition solar_table : list Eip13a.row := [solar_january; solar_total].

(** The day of [nan_day] with a zero in place of the cell that is not a
    number. *)
Definition zero_day : list Calculate.value :=
  [Calculate.Time (Some (Date 2024 2 1)); Calculate.Num 0; Calculate.Num 5].

(** A configuration that names a working column of the loop over the
    plans as its interval column, and a frame for it. *)
Definition clash_config : Calculate.config :=
  {| Calculate.date_column := "date"; Calculate.interval_columns := ["daily_cost"] |}.

Definition clash_frame : Calculate.frame :=
  {| Calculate.columns := ["date"; "daily_cost"];
     Calculate.data := [ [Calculate.Time (Some (Date 2024 1 1)); Calculate.Num 10] ] |}.

(** A band whose times are not times. *)
Definition malformed : band := {| start := "noon"; end_ := "later"; rate := 1%float |}.

(** Three bands that follow one another through the day. *)
Definition night : band := {| start := "00:00"; end_ := "07:00"; rate := 0.10%float |}.
Definition daytime : band := {| start := "07:00"; end_ := "21:00"; rate := 0.25%float |}.
Definition evening : band := {| start := "21:00"; end_ := "00:00"; rate := 0.15%float |}.

(** A band from 22:00 to 06:00. *)
Definition overnight : band := {| start := "22:00"; end_ := "06:00"; rate := 0.05%float |}.

(** A detail record whose start time did not parse. *)
Definition undated_raw : Eip13a.raw_row := text_row "DET" None None "I" 1.

(** A frame whose days are not in calendar order. *)
Definition unordered_frame : Calculate.frame :=
  {| Calculate.columns := ["date"; "h0000"; "h0030"];
     Calculate.data :=
       [ [Calculate.Time (Some (Date 2024 2 1)); Calculate.Num 1; Calculate.Num 2];
         [Calculate.Time (Some (Date 2024 1 2)); Calculate.Num 5; Calculate.Num 5];
         [Calculate.Time None; Calculate.Num 7; Calculate.Num 7];
         [Calculate.Time (Some (Date 2024 2 3)); Calculate.Num 3; Calculate.Num 4] ] |}.

(** The table of [flat_plan] on [unordered_frame]. *)
Definition unordered_january : Calculate.row :=
  Calculate.month_row flat_plan (2024, 1) [(10, 4)%float].

Definition unordered_february : Calculate.row :=
  Calculate.month_row flat_plan (2024, 2) [(3, 1.9)%float; (7, 3.1)%float].

Definition unordered_total : Calculate.row :=
  {| Calculate.Title := "Flat";
     Calculate.Month := "TOTAL";
     Calculate.Monthly_kWh := 20;
     Calculate.Days_in_month := 3;
     Calculate.Fixed_cost := 3;
     Calculate.Variable_cost := 6;
     Calculate.Total_cost := 9 |}.

(** A Saturday, and a plan that has bands for weekdays only. *)
Definition saturday : list Calculate.value :=
  [Calculate.Time (Some (Date 2024 1 6)); Calculate.Num 4; Calculate.Num 6].

Definition weekend_frame : Calculate.frame :=
  {| Calculate.columns := ["date"; "h0000"; "h0030"]; Calculate.data := [saturday] |}.

Definition weekday_only_plan : Calculate.plan :=
  {| Calculate.title := Some "Weekdays";
     Calculate.daily_rate := Some 1%float;
     Calculate.per_kwh_rate := None;
     Calculate.bands :=
       Some {| weekday_bands := Some [all_day]; weekend_bands := None |} |}.

(** The month rows of the flat and of the banded plan on [wide_frame]. *)
Definition flat_january : Calculate.row :=
  Calculate.month_row flat_plan (2024, 1) [(10, 4)%float; (10, 4)%float].

Definition flat_february : Calculate.row :=
  Calculate.month_row flat_plan (2024, 2) [(5, 2.5)%float].

Definition banded_january : Calculate.row :=
  Calculate.month_row banded_plan (2024, 1) [(10, 3.5)%float; (10, 3.5)%float].

Definition banded_february : Calculate.row :=
  Calculate.month_row banded_plan (2024, 2) [(5%float, PrimFloat.nan)].

End Fixtures.

(** * Facts about floats *)

Section FloatFacts.
Local Open Scope float_scope.










End FloatFacts.

(** ** Rounding *)

(** What [Fl.nearest_even] computes by division is the nearest whole
    number, the even one of two. *)
Lemma nearest_even_nearest (n d : Z) :
  0 <= n -> 0 < d -> Spec.nearest_whole n d (Fl.nearest_even n d).
Proof.
  intros Hn Hd. unfold Spec.nearest_whole, Fl.nearest_even.
  pose proof (Z.div_mod n d ltac:(lia)) as Hdiv.
  pose proof (Z.mod_pos_bound n d Hd) as Hmod.
  set (q := n / d) in *. set (r := n mod d) in *.
  assert (Hq : n - q * d = r) by lia.
  assert (Hq1 : n - (q + 1) * d = r - d) by lia.
  destruct (2 * r <? d) eqn:E1; [apply Z.ltb_lt in E1 | apply Z.ltb_ge in E1].
  - rewrite Hq. split; lia.
  - destruct (d <? 2 * r) eqn:E2; [apply Z.ltb_lt in E2 | apply Z.ltb_ge in E2].
    + rewrite Hq1. split; lia.
    + destruct (Z.even q) eqn:E3.
      * rewrite Hq. split; [lia | intros _; exact E3].
      * rewrite Hq1. split; [lia | ]. intros _.
        change (q + 1) with (Z.succ q). rewrite Z.even_succ, <- Z.negb_even, E3.
        reflexivity.
Qed.

Lemma rint_whole_of (y : float) : Spec.whole_of y (Fl.rint y).
Proof.
  unfold Spec.whole_of, Fl.rint.
  destruct (Prim2SF y) as [s | s | | s m e]; try reflexivity.
  destruct (e <? 0) eqn:E; [ | reflexivity].
  exists (Fl.nearest_even (Zpos m) (2 ^ (- e))). split; [ | reflexivity].
  apply nearest_even_nearest; [lia | ].
  apply Z.ltb_lt in E. apply Z.pow_pos_nonneg; lia.
Qed.

(** There is one nearest whole number, the ties being settled. *)
Lemma nearest_whole_unique (n d k k' : Z) :
  0 < d -> Spec.nearest_whole n d k -> Spec.nearest_whole n d k' -> k = k'.
Proof.
  unfold Spec.nearest_whole. intros Hd [H1 E1] [H2 E2].
  assert (Hclose : k' = k \/ k' = k + 1 \/ k' = k - 1) by nia.
  destruct Hclose as [-> | [-> | ->]]; [reflexivity | | ]; exfalso.
  - assert (T1 : 2 * Z.abs (n - k * d) = d) by nia.
    assert (T2 : 2 * Z.abs (n - (k + 1) * d) = d) by nia.
    specialize (E1 T1). specialize (E2 T2).
    change (k + 1) with (Z.succ k) in E2. rewrite Z.even_succ, <- Z.negb_even, E1 in E2.
    discriminate E2.
  - assert (T1 : 2 * Z.abs (n - k * d) = d) by nia.
    assert (T2 : 2 * Z.abs (n - (k - 1) * d) = d) by nia.
    specialize (E1 T1). specialize (E2 T2).
    replace k with (Z.succ (k - 1)) in E1 by lia.
    rewrite Z.even_succ, <- Z.negb_even, E2 in E1. discriminate E1.
Qed.

(** Rounding to 2 decimals gives one value. *)
Lemma two_decimals_unique (x t t' : float) :
  Spec.two_decimals x t -> Spec.two_decimals x t' -> t = t'.
Proof.
  intros [w [Hw ->]] [w' [Hw' ->]]. f_equal.
  unfold Spec.whole_of in Hw, Hw'.
  destruct (Prim2SF (x * 100)) as [s | s | | s m e]; try congruence.
  destruct (e <? 0) eqn:E; [ | congruence].
  destruct Hw as [k [Hk ->]]. destruct Hw' as [k' [Hk' ->]].
  apply Z.ltb_lt in E.
  assert (Hd : 0 < 2 ^ (- e)) by (apply Z.pow_pos_nonneg; lia).
  now rewrite (nearest_whole_unique _ _ _ _ Hd Hk Hk').
Qed.

(** ** Sums *)

(** The unrolled loop leaves fewer than eight values when it has a turn
    for every value. *)
Lemma unrolled_rest_short (fuel : nat) :
  forall r rest, (List.length rest <= fuel)%nat ->
  (List.length (snd (Fl.unrolled fuel r rest)) < 8)%nat.
Proof.
  induction fuel as [ | fuel IH]; intros r rest H; cbn [Fl.unrolled].
  - cbn [snd]. lia.
  - destruct (List.length rest <? 8)%nat eqn:E.
    + apply Nat.ltb_lt in E. exact E.
    + apply Nat.ltb_ge in E. apply IH. rewrite length_skipn. lia.
Qed.

(** The pairwise sum does not depend on the number of splits it is
    allowed, from the number of values on. *)
Lemma pairwise_sum_fuel (fuel : nat) :
  forall fuel' l, (List.length l <= fuel)%nat -> (List.length l <= fuel')%nat ->
  Fl.pairwise_sum fuel l = Fl.pairwise_sum fuel' l.
Proof.
  induction fuel as [ | fuel IH]; intros fuel' l H H'.
  - destruct l; [ | cbn in H; lia]. now destruct fuel'.
  - destruct fuel' as [ | fuel'].
    + destruct l; [reflexivity | cbn in H'; lia].
    + cbn [Fl.pairwise_sum].
      destruct (List.length l <? 8)%nat; [reflexivity | ].
      destruct (List.length l <=? 128)%nat eqn:E; [reflexivity | ].
      apply Nat.leb_gt in E.
      set (n := List.length l) in *.
      assert (Hn2 : (0 < n / 2 - (n / 2) mod 8 < n)%nat).
      { pose proof (Nat.mod_upper_bound (n / 2) 8 ltac:(lia)).
        pose proof (Nat.div_mod_eq n 2).
        pose proof (Nat.mod_upper_bound n 2 ltac:(lia)). lia. }
      f_equal; apply IH; rewrite ?length_firstn, ?length_skipn; fold n; lia.
Qed.

(** Ten times 0.1: the sum of a column and the sum of a group are 1, the
    sum from the left is not. *)
Lemma sums_of_ten_tenths :
  Fl.np_sum (repeat 0.1%float 10) = 1%float
  /\ Fl.group_sum (repeat 0.1%float 10) = 1%float
  /\ Fl.series_sum (repeat 0.1%float 10) = 0.99999999999999989%float.
Proof. repeat split. Qed.

(** A column of fewer than 8 values is summed from the left. *)
Lemma np_sum_short (l : list float) :
  (List.length l < 8)%nat ->
  Fl.np_sum l
  = (Fl.zero + fold_left PrimFloat.add
                 (map (fun x => if PrimFloat.is_nan x then Fl.zero else x) l)
                 Fl.zero)%float.
Proof.
  intros H. unfold Fl.np_sum. f_equal.
  rewrite <- (length_map (fun x => if PrimFloat.is_nan x then Fl.zero else x) l) in H.
  apply Nat.ltb_lt in H.
  destruct (List.length l); cbn [Fl.pairwise_sum]; now rewrite H.
Qed.

(** numpy's [round(2)] rounds to 2 decimals. *)
Lemma round2_two_decimals (x : float) : Spec.two_decimals x (Fl.round2 x).
Proof.
  exists (Fl.rint (x * 100)%float). split; [apply rint_whole_of | reflexivity].
Qed.

(** * Facts about the helpers *)

Lemma mapM_cons_ok {A B : Type} (f : A -> result B) (a : A) (l : list A)
    (rs : list B) :
  mapM f (a :: l) = Ok rs ->
  exists b bs, f a = Ok b /\ mapM f l = Ok bs /\ rs = b :: bs.
Proof.
  cbn. destruct (f a) as [b | e]; cbn; [ | discriminate].
  destruct (mapM f l) as [bs | e]; cbn; [ | discriminate].
  intros H. injection H as <-. now exists b, bs.
Qed.

Lemma mapM_length {A B : Type} (f : A -> result B) (l : list A) (rs : list B) :
  mapM f l = Ok rs -> List.length rs = List.length l.
Proof.
  revert rs. induction l as [ | a l IH]; intros rs H.
  - cbn in H. injection H as <-. reflexivity.
  - apply mapM_cons_ok in H. destruct H as [b [bs [_ [Hl ->]]]].
    cbn. f_equal. now apply IH.
Qed.

Lemma parse_time_str_same (s : string) :
  Eip13a.parse_time_str s = Calculate.parse_time_str s.
Proof. reflexivity. Qed.

Lemma find_first_split {A : Type} (f : A -> bool) (pre post : list A) (a : A) :
  (forall x, In x pre -> f x = false) -> f a = true ->
  find f (pre ++ a :: post) = Some a.
Proof.
  intros Hpre Ha. induction pre as [ | x pre IH]; cbn.
  - now rewrite Ha.
  - rewrite (Hpre x (or_introl eq_refl)). apply IH.
    intros y Hy. apply Hpre. now right.
Qed.

(** ** The Band Cost Evaluator *)

Lemma in_window_iff (t s e : timedelta) (r : float) :
  Spec.in_window t (s, e, r) = true <-> s <= t < (if e =? 0 then 1440 else e).
Proof.
  cbn. unfold Spec.window_end, day_end.
  rewrite andb_true_iff, Z.leb_le, Z.ltb_lt. reflexivity.
Qed.

(** On bands that resolve, the evaluator of eip13a.py returns what
    [Spec.evaluate] says. *)
Lemma eip13a_band_cost_evaluate (q : float) (t : timedelta) (bands : list band) :
  forall ranges, mapM Calculate.resolve_band bands = Ok ranges ->
  Eip13a.calculate_band_cost q t bands = Ok (Spec.evaluate q t ranges).
Proof.
  induction bands as [ | b bands IH]; intros ranges H.
  - cbn in H. injection H as <-. reflexivity.
  - apply mapM_cons_ok in H. destruct H as [r [rs [Hb [Hrs ->]]]].
    unfold Calculate.resolve_band in Hb. cbn [Eip13a.calculate_band_cost].
    change Eip13a.parse_time_str with Calculate.parse_time_str.
    destruct (Calculate.parse_time_str (start b)) as [s | e]; cbn in Hb |- *;
      [ | discriminate].
    destruct (Calculate.parse_time_str (end_ b)) as [e' | e]; cbn in Hb |- *;
      [ | discriminate].
    injection Hb as <-.
    unfold Spec.evaluate, Spec.first_band. cbn [find Spec.in_window].
    unfold Spec.window_end.
    match goal with
    | |- (if ?c then _ else _) = _ => destruct c
    end; [reflexivity | ].
    rewrite (IH rs Hrs). reflexivity.
Qed.

(** The loop over the bands of calculate.py adds what [Spec.first_band]
    selects, and nothing when no window holds the interval. *)
Lemma band_step_first_band (total q : float) (t : timedelta)
    (ranges : list Calculate.band_range) :
  Calculate.band_step total q t ranges =
  match Spec.first_band t ranges with
  | Some (_, _, r) => (total + q * r)%float
  | None => total
  end.
Proof.
  induction ranges as [ | [[s e] r] ranges IH]; [reflexivity | ].
  cbn [Calculate.band_step]. unfold Spec.first_band. cbn [find Spec.in_window].
  unfold Spec.window_end.
  match goal with
  | |- (if ?c then _ else _) = _ => destruct c
  end; [reflexivity | ].
  exact IH.
Qed.

(** C1. For every quantity, interval offset and ordered band list that
    resolves, the Band Cost Evaluator returns the quantity times the rate of
    the first band, in list order, whose half-open window holds the offset
    (24 hours standing for an end of zero), and 0 when no window holds it:
    so for the evaluator of eip13a.py, and so for what the loop over the
    bands of calculate.py adds to the day's total. In particular a band
    whose window holds the offset, with no such band before it, gives the
    rate whatever bands follow it, overlapping or not. *)
Theorem band_cost_first_match (q : float) (t : timedelta) (bands : list band)
    (ranges : list Calculate.band_range) :
  mapM Calculate.resolve_band bands = Ok ranges ->
  Eip13a.calculate_band_cost q t bands
    = Ok (match find (Spec.in_window t) ranges with
          | Some (_, _, r) => (q * r)%float
          | None => 0%float
          end)
  /\ (forall total,
        Calculate.band_step total q t ranges
        = match find (Spec.in_window t) ranges with
          | Some (_, _, r) => (total + q * r)%float
          | None => total
          end)
  /\ (forall pre s e r post,
        ranges = pre ++ (s, e, r) :: post ->
        (forall x, In x pre -> Spec.in_window t x = false) ->
        s <= t < (if e =? 0 then 1440 else e) ->
        Eip13a.calculate_band_cost q t bands = Ok (q * r)%float
        /\ forall total, Calculate.band_step total q t ranges = (total + q * r)%float)
  /\ ((forall x, In x ranges -> Spec.in_window t x = false) ->
        Eip13a.calculate_band_cost q t bands = Ok 0%float
        /\ forall total, Calculate.band_step total q t ranges = total).
Proof.
  intros H.
  pose proof (eip13a_band_cost_evaluate q t bands ranges H) as He.
  unfold Spec.evaluate, Spec.first_band in He.
  repeat split.
  - exact He.
  - intros total. apply band_step_first_band.
  - rewrite He. subst ranges.
    rewrite (find_first_split _ pre post (s, e, r)); [reflexivity | assumption | ].
    now apply in_window_iff.
  - intros total. rewrite band_step_first_band. unfold Spec.first_band. subst ranges.
    rewrite (find_first_split _ pre post (s, e, r)); [reflexivity | assumption | ].
    now apply in_window_iff.
  - rewrite He.
    destruct (find (Spec.in_window t) ranges) as [x | ] eqn:E; [ | reflexivity].
    apply find_some in E. destruct E as [Hin Hw].
    rewrite (H0 x Hin) in Hw. discriminate.
  - intros total. rewrite band_step_first_band. unfold Spec.first_band.
    destruct (find (Spec.in_window t) ranges) as [x | ] eqn:E; [ | reflexivity].
    apply find_some in E. destruct E as [Hin Hw].
    rewrite (H0 x Hin) in Hw. discriminate.
Qed.

(** Two overlapping bands, 00:00-07:00 at 0.10 and 06:00-24:00 at 0.25, and
    5 kWh at 06:30: the first band's rate applies. *)
Lemma band_cost_first_match_witness :
  Eip13a.calculate_band_cost 5 390 [Fixtures.early; Fixtures.late] = Ok (5 * 0.10)%float.
Proof.
  exact (proj1 (band_cost_first_match 5 390 [Fixtures.early; Fixtures.late]
                  [Fixtures.early_range; Fixtures.late_range] eq_refl)).
Defined.

(** ** The cost of a day, wide format *)




(** ** Month rows *)

Lemma bind_ok {A B : Type} (m : result A) (k : A -> result B) (b : B) :
  bind m k = Ok b -> exists a, m = Ok a /\ k a = Ok b.
Proof. destruct m as [a | e]; cbn; [ | discriminate]. intros H. now exists a. Qed.

Ltac bind_inv H :=
  repeat
    (let a := fresh "v" in
     let Ha := fresh "Hv" in
     apply bind_ok in H; destruct H as [a [Ha H]]).

Lemma plan_step_rows (cfg : Calculate.config) (df df' : Calculate.frame)
    (p : Calculate.plan) (rows : list Calculate.row) :
  Calculate.plan_step cfg df p = Ok (df', rows) ->
  exists groups, rows = map (fun g => Calculate.month_row p (fst g) (snd g)) groups.
Proof.
  unfold Calculate.plan_step. intros H. bind_inv H.
  injection H as _ <-. eexists. reflexivity.
Qed.

Lemma monthly_rows_rows (p : Eip13a.plan) (df_all : list Eip13a.interval)
    (rows : list Eip13a.row) :
  Eip13a.monthly_rows p df_all = Ok rows ->
  exists groups, rows = map (fun g => Eip13a.month_row p (fst g) (snd g)) groups.
Proof.
  unfold Eip13a.monthly_rows. intros H. bind_inv H.
  injection H as <-. eexists. reflexivity.
Qed.

(** C3. Every month row of a plan adds up. Wide format: Total_cost is
    Fixed_cost + Variable_cost. Import/export: the total before the
    discount is Fixed_cost + Variable_cost - Credits; when fixed_discount
    is set (it is not zero) Total_cost is that total times
    (1 - discount/100) and Discounts is that total times discount/100;
    when it is not set Total_cost is that total and Discounts is 0. *)
Theorem month_row_totals :
  (forall cfg df p df' rows r,
      Calculate.plan_step cfg df p = Ok (df', rows) ->
      In r rows ->
      Calculate.Total_cost r
      = (Calculate.Fixed_cost r + Calculate.Variable_cost r)%float)
  /\ (forall p df_all rows r,
        Eip13a.monthly_rows p df_all = Ok rows ->
        In r rows ->
        let pre :=
          (Eip13a.Fixed_cost r + Eip13a.Variable_cost r - Eip13a.Credits r)%float in
        let discount := Eip13a.get_fixed_discount p in
        (Fl.truthy discount = true ->
           Eip13a.Total_cost r = (pre * (1 - discount / 100))%float
           /\ Eip13a.Discounts r = (pre * (discount / 100))%float)
        /\ (Fl.truthy discount = false ->
           Eip13a.Total_cost r = pre /\ Eip13a.Discounts r = 0%float)).
Proof.
  split.
  - intros cfg df p df' rows r H Hin.
    destruct (plan_step_rows _ _ _ _ _ H) as [groups ->].
    apply in_map_iff in Hin. destruct Hin as [g [<- _]]. reflexivity.
  - intros p df_all rows r H Hin.
    destruct (monthly_rows_rows _ _ _ H) as [groups ->].
    apply in_map_iff in Hin. destruct Hin as [g [<- _]].
    cbn. split; intros Hd; rewrite Hd; split; reflexivity.
Qed.

(** The January row of the plan with a discount of 10 percent. *)
Lemma month_row_totals_witness :
  Eip13a.monthly_rows Fixtures.solar_plan Fixtures.eiep_frame = Ok [Fixtures.solar_january]
  /\ Eip13a.Total_cost Fixtures.solar_january
      = ((Eip13a.Fixed_cost Fixtures.solar_january
          + Eip13a.Variable_cost Fixtures.solar_january
          - Eip13a.Credits Fixtures.solar_january) * (1 - 10 / 100))%float.
Proof.
  split; [reflexivity | ].
  exact (proj1 (proj1 (proj2 month_row_totals Fixtures.solar_plan Fixtures.eiep_frame
                         [Fixtures.solar_january] Fixtures.solar_january
                         eq_refl (or_introl eq_refl)) eq_refl)).
Defined.

(** ** The TOTAL row *)



Lemma wide_total_row_of (p : Calculate.plan) (monthly : list Calculate.row)
    (t : Calculate.row) :
  Calculate.total_row p monthly = Ok t ->
  monthly <> [] /\ Spec.wide_total_of monthly t.
Proof.
  destruct monthly as [ | r monthly]; [discriminate | ].
  cbn [Calculate.total_row]. intros H. injection H as <-.
  split; [discriminate | ]. unfold Spec.wide_total_of, Spec.rounded_total.
  cbn [Calculate.Month Calculate.Monthly_kWh Calculate.Days_in_month
       Calculate.Fixed_cost Calculate.Variable_cost Calculate.Total_cost].
  repeat (split; [first [reflexivity | apply round2_two_decimals] | ]).
  apply round2_two_decimals.
Qed.

Lemma eiep_total_row_of (p : Eip13a.plan) (monthly : list Eip13a.row) (t : Eip13a.row) :
  Eip13a.total_row p monthly = Ok t ->
  monthly <> [] /\ Spec.eiep_total_of monthly t.
Proof.
  destruct monthly as [ | r monthly]; [discriminate | ].
  cbn [Eip13a.total_row]. intros H. injection H as <-.
  split; [discriminate | ]. unfold Spec.eiep_total_of, Spec.rounded_total.
  cbn [Eip13a.Month Eip13a.Days_in_month Eip13a.Fixed_cost Eip13a.Variable_cost
       Eip13a.Credits Eip13a.Discounts Eip13a.Total_cost Eip13a.totalcostnotadjusted].
  repeat (split; [first [reflexivity | apply round2_two_decimals] | ]).
  apply round2_two_decimals.
Qed.



(** The table of a plan, wide format, from the month rows the loop over
    the plans computes. *)
Lemma wide_plan_table_inv (cfg : Calculate.config) (df : Calculate.frame)
    (p : Calculate.plan) (table : list Calculate.row) :
  Calculate.plan_table cfg df p = Ok table ->
  exists df' monthly t,
    Calculate.plan_step cfg df p = Ok (df', monthly)
    /\ Calculate.total_row p monthly = Ok t
    /\ table = monthly ++ [t].
Proof.
  unfold Calculate.plan_table. intros H.
  apply bind_ok in H. destruct H as [[df' monthly] [Hstep H]].
  apply bind_ok in H. destruct H as [t [Ht H]]. injection H as <-.
  now exists df', monthly, t.
Qed.

Lemma eiep_plan_table_inv (p : Eip13a.plan) (df_all : list Eip13a.interval)
    (table : list Eip13a.row) :
  Eip13a.plan_table p df_all = Ok table ->
  exists monthly t,
    Eip13a.monthly_rows p df_all = Ok monthly
    /\ Eip13a.total_row p monthly = Ok t
    /\ table = monthly ++ [t].
Proof.
  unfold Eip13a.plan_table. intros H.
  apply bind_ok in H. destruct H as [monthly [Hrows H]].
  apply bind_ok in H. destruct H as [t [Ht H]]. injection H as <-.
  now exists monthly, t.
Qed.



(** ** Missing columns *)

Lemma index_of_none (name : string) (names : list string) :
  ~ In name names -> Calculate.index_of name names = None.
Proof.
  induction names as [ | n names IH]; intros H; [reflexivity | ].
  cbn. destruct (String.eqb n name) eqn:E.
  - apply String.eqb_eq in E. exfalso. apply H. now left.
  - rewrite IH; [reflexivity | ]. intros Hin. apply H. now right.
Qed.

Lemma has_column_absent (df : Calculate.frame) (name : string) :
  ~ In name (Calculate.columns df) -> Calculate.has_column df name = false.
Proof.
  intros H. unfold Calculate.has_column. now rewrite index_of_none.
Qed.

Lemma convert_column_columns (conv : Calculate.value -> result Calculate.value)
    (df df' : Calculate.frame) (name : string) :
  Calculate.has_column df name = true ->
  Calculate.convert_column conv df name = Ok df' ->
  Calculate.columns df' = Calculate.columns df.
Proof.
  unfold Calculate.convert_column, Calculate.has_column. intros Hc H.
  bind_inv H. injection H as <-. unfold Calculate.set_column.
  destruct (Calculate.index_of name (Calculate.columns df)); [reflexivity | discriminate].
Qed.

Lemma mapM_total {A B : Type} (f : A -> result B) (l : list A) :
  (forall a, In a l -> exists b, f a = Ok b) -> exists bs, mapM f l = Ok bs.
Proof.
  induction l as [ | a l IH]; intros H; [now exists [] | ].
  destruct (H a (or_introl eq_refl)) as [b Hb].
  destruct IH as [bs Hbs]; [intros x Hx; apply H; now right | ].
  exists (b :: bs). cbn. now rewrite Hb, Hbs.
Qed.

Lemma mapM_In {A B : Type} (f : A -> result B) (l : list A) (bs : list B) :
  mapM f l = Ok bs -> forall b, In b bs -> exists a, In a l /\ f a = Ok b.
Proof.
  revert bs. induction l as [ | a l IH]; intros bs H b Hb.
  - cbn in H. injection H as <-. destruct Hb.
  - apply mapM_cons_ok in H. destruct H as [b0 [bs0 [Ha [Hl ->]]]].
    destruct Hb as [<- | Hb].
    + exists a. split; [now left | exact Ha].
    + destruct (IH bs0 Hl b Hb) as [a' [Hin Hf]]. exists a'. split; [now right | exact Hf].
Qed.

Lemma in_skipn_in {A : Type} (x : A) (n : nat) (l : list A) :
  In x (skipn n l) -> In x l.
Proof.
  intros H. rewrite <- (firstn_skipn n l). apply in_or_app. now right.
Qed.

Lemma read_line_raw (expected : nat) (line : list Calculate.cell)
    (r : list Calculate.value) :
  Calculate.read_line expected line = Ok r ->
  List.length r = expected /\ forall v, In v r -> Calculate.is_raw v.
Proof.
  unfold Calculate.read_line. intros H.
  destruct (expected <? List.length line)%nat eqn:E; [discriminate | ].
  apply Nat.ltb_ge in E. injection H as <-. split.
  - rewrite length_app, length_map, repeat_length. lia.
  - intros v Hin. apply in_app_or in Hin. destruct Hin as [Hin | Hin].
    + apply in_map_iff in Hin. destruct Hin as [c [<- _]]. now exists c.
    + apply repeat_spec in Hin. rewrite Hin. eexists. reflexivity.
Qed.

Lemma read_csv_raw (f : Calculate.csv_file) (df : Calculate.frame) :
  Calculate.read_csv f = Ok df ->
  Calculate.columns df = Calculate.header f
  /\ forall r, In r (Calculate.data df) -> forall i, Calculate.is_raw (nth i r Calculate.missing).
Proof.
  unfold Calculate.read_csv. intros H. bind_inv H. injection H as <-. cbn.
  split; [reflexivity | ]. intros r Hr i.
  apply in_map_iff in Hr. destruct Hr as [r0 [<- Hr0]].
  destruct (mapM_In _ _ _ Hv r0 Hr0) as [line [_ Hline]].
  destruct (read_line_raw _ _ _ Hline) as [_ Hraw].
  destruct (nth_in_or_default i
              (skipn (Calculate.expected_fields f - List.length (Calculate.header f)) r0)
              Calculate.missing) as [Hin | ->].
  - apply Hraw. now apply in_skipn_in in Hin.
  - eexists. reflexivity.
Qed.

(** The check of the columns: a frame as read from a file that lacks the
    date column or one of the interval columns does not load. *)
Lemma load_missing_column (cfg : Calculate.config) (df : Calculate.frame) :
  (forall r, In r (Calculate.data df) -> forall i, Calculate.is_raw (nth i r Calculate.missing)) ->
  ~ In (Calculate.date_column cfg) (Calculate.columns df)
  \/ (exists c, In c (Calculate.interval_columns cfg) /\ ~ In c (Calculate.columns df)) ->
  Calculate.load cfg df = Err ValueError.
Proof.
  intros Hraw H. unfold Calculate.load.
  destruct (Calculate.has_column df (Calculate.date_column cfg)) eqn:Hd;
    cbn [negb]; [ | reflexivity].
  destruct H as [H | [c [Hc Habs]]].
  - rewrite (has_column_absent _ _ H) in Hd. discriminate.
  - assert (Hconv : exists df1,
               Calculate.convert_column Calculate.to_datetime df
                 (Calculate.date_column cfg) = Ok df1).
    { unfold Calculate.convert_column, Calculate.get_column, Calculate.row_get.
      unfold Calculate.has_column in Hd.
      destruct (Calculate.index_of (Calculate.date_column cfg) (Calculate.columns df))
        as [i | ]; [ | discriminate].
      destruct (mapM_total (fun r => Ok (nth i r Calculate.missing)) (Calculate.data df))
        as [col Hcol]; [intros r _; eexists; reflexivity | ].
      rewrite Hcol. cbn [bind].
      destruct (mapM_total Calculate.to_datetime col) as [col' Hcol'].
      { intros v Hv2. destruct (mapM_In _ _ _ Hcol v Hv2) as [r [Hr Hrv]].
        injection Hrv as <-. destruct (Hraw r Hr i) as [c0 ->]. eexists. reflexivity. }
      rewrite Hcol'. eexists. reflexivity. }
    destruct Hconv as [df1 Hconv]. rewrite Hconv. cbn [bind].
    pose proof (convert_column_columns _ _ _ _ Hd Hconv) as Hcols.
    destruct (filter (fun c0 => negb (Calculate.has_column df1 c0))
                     (Calculate.interval_columns cfg)) as [ | m ms] eqn:Hf;
      [ | reflexivity].
    exfalso.
    assert (Hin : In c (filter (fun c0 => negb (Calculate.has_column df1 c0))
                               (Calculate.interval_columns cfg))).
    { apply filter_In. split; [exact Hc | ].
      rewrite has_column_absent; [reflexivity | ]. now rewrite Hcols. }
    rewrite Hf in Hin. exact Hin.
Qed.

(** C9. In the wide format, when the configured date column or one of the
    configured interval columns is not a column of the CSV file, the run
    ends in a ValueError with nothing printed and nothing written: no
    summary of any plan, no output table. *)
Theorem missing_column_aborts (cfg : Calculate.config) (csvfile : Calculate.csv_file)
    (rate_plans : list Calculate.plan) :
  ~ In (Calculate.date_column cfg) (Calculate.header csvfile)
  \/ (exists c, In c (Calculate.interval_columns cfg)
                /\ ~ In c (Calculate.header csvfile)) ->
  Calculate.main cfg csvfile rate_plans = ([], Err ValueError).
Proof.
  intros H. unfold Calculate.main.
  destruct (Calculate.read_csv csvfile) as [df | e] eqn:Hread.
  - destruct (read_csv_raw _ _ Hread) as [Hcols Hraw].
    cbn [lift run_bind]. rewrite (load_missing_column cfg df Hraw).
    + reflexivity.
    + now rewrite Hcols.
  - unfold Calculate.read_csv in Hread.
    generalize dependent (Calculate.expected_fields csvfile). intros expected Hread.
    destruct (mapM (Calculate.read_line expected) (Calculate.records csvfile))
      as [rows | e'] eqn:Hrows; cbn [bind] in Hread; [discriminate | ].
    injection Hread as <-.
    assert (He : e' = ValueError).
    { clear H. revert e' Hrows.
      induction (Calculate.records csvfile) as [ | line lines IH]; intros e' Hrows;
        [discriminate | ].
      cbn [mapM] in Hrows. unfold Calculate.read_line at 1 in Hrows.
      destruct (expected <? List.length line)%nat;
        cbn [bind] in Hrows; [now injection Hrows as <- | ].
      destruct (mapM (Calculate.read_line expected) lines)
        as [rs | e2]; cbn [bind] in Hrows; [discriminate | ].
      injection Hrows as <-. now apply IH. }
    subst e'. reflexivity.
Qed.

(** A configuration that names an interval column the file does not have. *)
Lemma missing_column_aborts_witness :
  Calculate.main
    {| Calculate.date_column := "date"; Calculate.interval_columns := ["h0000"; "h0100"] |}
    Fixtures.wide_csv [Fixtures.flat_plan] = ([], Err ValueError).
Proof.
  apply missing_column_aborts. right. exists "h0100". split.
  - right. left. reflexivity.
  - cbn. intros [H | [H | [H | []]]]; discriminate H.
Defined.

(** ** Readings of a day, import/export *)

Lemma day_totals_app (p : Eip13a.plan) (w : bool) (before after : list Eip13a.interval) :
  forall acc,
  Eip13a.day_totals p w acc (before ++ after)
  = (acc' <- Eip13a.day_totals p w acc before ;; Eip13a.day_totals p w acc' after).
Proof.
  induction before as [ | x before IH]; intros acc; [reflexivity | ].
  cbn [app Eip13a.day_totals].
  destruct (Eip13a.reading_step p w acc x) as [acc' | e]; cbn [bind]; [apply IH | reflexivity].
Qed.

Lemma reading_step_import (p : Eip13a.plan) (w : bool) (iv : Eip13a.interval)
    (imports exports : float) :
  Eip13a.direction iv = "I" ->
  Eip13a.reading_step p w (imports, exports) iv
  = (c <- Eip13a.import_cost p w iv ;; Ok ((imports + c)%float, exports)).
Proof.
  intros H. unfold Eip13a.reading_step. rewrite H. reflexivity.
Qed.

Lemma reading_step_export (p : Eip13a.plan) (w : bool) (iv : Eip13a.interval)
    (imports exports : float) :
  Eip13a.direction iv = "X" ->
  Eip13a.reading_step p w (imports, exports) iv
  = (oc <- Eip13a.export_credit p w iv ;;
     Ok (imports, match oc with Some c => (exports + c)%float | None => exports end)).
Proof.
  intros H. unfold Eip13a.reading_step. rewrite H.
  change (String.eqb "X" "I") with false. change (String.eqb "X" "X") with true. cbn iota.
  destruct (Eip13a.export_credit p w iv) as [[c | ] | e]; reflexivity.
Qed.

Lemma reading_step_stray (p : Eip13a.plan) (w : bool) (acc : float * float)
    (iv : Eip13a.interval) :
  Eip13a.direction iv <> "I" -> Eip13a.direction iv <> "X" ->
  Eip13a.reading_step p w acc iv = Ok acc.
Proof.
  intros HI HX. unfold Eip13a.reading_step. destruct acc as [imports exports].
  apply String.eqb_neq in HI, HX. now rewrite HI, HX.
Qed.

(** A file loads when its four text columns are text, and then to the
    detail records it has, converted; it does not load otherwise. *)
Lemma load_eiep13a_text (csvfile : list Eip13a.raw_row) :
  Spec.reads_as_text csvfile = true ->
  Eip13a.load_eiep13a csvfile
  = Ok (map Eip13a.cleaned (filter Eip13a.is_det csvfile)).
Proof.
  unfold Spec.reads_as_text, Eip13a.load_eiep13a, Eip13a.str_accessor. intros H.
  apply andb_prop in H. destruct H as [H H4].
  apply andb_prop in H. destruct H as [H H3].
  apply andb_prop in H. destruct H as [H1 H2].
  now rewrite H1, H2, H3, H4.
Qed.

Lemma load_eiep13a_not_text (csvfile : list Eip13a.raw_row) :
  Spec.reads_as_text csvfile = false ->
  Eip13a.load_eiep13a csvfile = Err AttributeError.
Proof.
  unfold Spec.reads_as_text, Eip13a.load_eiep13a, Eip13a.str_accessor. intros H.
  destruct (Eip13a.text_column (map Eip13a.rec_type_kind csvfile)); [ | reflexivity].
  destruct (Eip13a.text_column (map Eip13a.read_start_kind csvfile)); [ | reflexivity].
  destruct (Eip13a.text_column (map Eip13a.read_end_kind csvfile)); [ | reflexivity].
  destruct (Eip13a.text_column (map Eip13a.energy_flow_direction_kind csvfile));
    [discriminate H | reflexivity].
Qed.

Lemma load_eiep13a_ok (csvfile : list Eip13a.raw_row) (loaded : list Eip13a.reading) :
  Eip13a.load_eiep13a csvfile = Ok loaded ->
  Spec.reads_as_text csvfile = true
  /\ loaded = map Eip13a.cleaned (filter Eip13a.is_det csvfile).
Proof.
  intros H. destruct (Spec.reads_as_text csvfile) eqn:E.
  - rewrite (load_eiep13a_text _ E) in H. injection H as <-. now split.
  - rewrite (load_eiep13a_not_text _ E) in H. discriminate.
Qed.

Lemma loaded_direction (raw : Eip13a.raw_row) (loaded : list Eip13a.reading)
    (rd : Eip13a.reading) (iv : Eip13a.interval) :
  Eip13a.load_eiep13a [raw] = Ok loaded -> In rd loaded -> Eip13a.derive rd = Ok iv ->
  Eip13a.direction iv = Str.upper (Str.strip (Eip13a.raw_energy_flow_direction raw)).
Proof.
  intros Hload. apply load_eiep13a_ok in Hload. destruct Hload as [_ ->].
  cbn [filter]. destruct (Eip13a.is_det raw); cbn [map In]; [ | tauto].
  intros [<- | []]. unfold Eip13a.derive. cbn.
  destruct (Eip13a.raw_read_start raw); [ | discriminate].
  intros H. injection H as <-. reflexivity.
Qed.

(** C10. In the import/export variant a reading whose trimmed and
    uppercased energy_flow_direction is neither "I" nor "X" is ignored
    without an error: the loop over the readings leaves imports and exports
    as they were, and the totals and the result of its day (imports,
    exports, daily cost) are those of the day without the reading. *)
Theorem stray_direction_ignored (raw : Eip13a.raw_row) (loaded : list Eip13a.reading)
    (rd : Eip13a.reading) (iv : Eip13a.interval) :
  Eip13a.load_eiep13a [raw] = Ok loaded ->
  In rd loaded ->
  Eip13a.derive rd = Ok iv ->
  Str.upper (Str.strip (Eip13a.raw_energy_flow_direction raw)) <> "I" ->
  Str.upper (Str.strip (Eip13a.raw_energy_flow_direction raw)) <> "X" ->
  forall (p : Eip13a.plan),
    (forall is_weekend acc, Eip13a.reading_step p is_weekend acc iv = Ok acc)
    /\ (forall is_weekend acc before after,
          Eip13a.day_totals p is_weekend acc (before ++ iv :: after)
          = Eip13a.day_totals p is_weekend acc (before ++ after))
    /\ (forall d before after,
          Eip13a.day_result p d (before ++ iv :: after)
          = Eip13a.day_result p d (before ++ after)).
Proof.
  intros Hload Hrd Hiv HI HX p.
  rewrite <- (loaded_direction raw loaded rd iv Hload Hrd Hiv) in HI, HX.
  assert (Htotals : forall is_weekend acc before after,
             Eip13a.day_totals p is_weekend acc (before ++ iv :: after)
             = Eip13a.day_totals p is_weekend acc (before ++ after)).
  { intros w acc before after. rewrite !day_totals_app.
    destruct (Eip13a.day_totals p w acc before) as [acc' | e]; cbn [bind]; [ | reflexivity].
    cbn [Eip13a.day_totals]. now rewrite (reading_step_stray p w acc' iv HI HX). }
  split; [ | split].
  - intros w acc. now apply reading_step_stray.
  - exact Htotals.
  - intros d before after. unfold Eip13a.day_result. now rewrite Htotals.
Qed.

(** A reading with direction q between an import and an export. *)
Lemma stray_direction_ignored_witness :
  Eip13a.day_result Fixtures.solar_plan (Date 2024 1 1)
    ([Fixtures.import_10] ++ Fixtures.stray :: [Fixtures.export_4])
  = Eip13a.day_result Fixtures.solar_plan (Date 2024 1 1)
      ([Fixtures.import_10] ++ [Fixtures.export_4]).
Proof.
  refine (proj2 (proj2 (stray_direction_ignored Fixtures.stray_raw _ _ Fixtures.stray
                          eq_refl (or_introl eq_refl) eq_refl _ _ Fixtures.solar_plan))
                (Date 2024 1 1) [Fixtures.import_10] [Fixtures.export_4]);
    discriminate.
Defined.



(** ** The total before credits and discounts *)




(** ** A quantity that is not a number *)

(** C8, at a day of a banded plan with a cell that does not parse. The
    cell is NaN in the frame. On the flat path the day costs what its
    other quantities cost (1 + 5 * 0.30). On the banded path the cost of
    the day is NaN, not the 1 + 5 * 0.25 of the day without the cell's
    quantity; the month then loses the whole day from its sum of costs
    while still counting its daily rate as fixed, and its Variable_cost
    is -1. *)
Theorem banded_nan_day_cost :
  (df <- Calculate.read_csv Fixtures.wide_csv ;; Calculate.load Fixtures.wide_config df)
  = Ok Fixtures.wide_frame
  /\ Calculate.daily_cost_of Fixtures.wide_config Fixtures.wide_frame
       Fixtures.flat_plan Fixtures.nan_day = Ok 2.5%float
  /\ Calculate.daily_cost_of Fixtures.wide_config Fixtures.wide_frame
       Fixtures.banded_plan Fixtures.nan_day = Ok PrimFloat.nan
  /\ Calculate.daily_cost_of Fixtures.wide_config Fixtures.wide_frame
       Fixtures.banded_plan Fixtures.zero_day = Ok 2.25%float
  /\ (exists df january february,
        Calculate.plan_step Fixtures.wide_config Fixtures.wide_frame Fixtures.banded_plan
        = Ok (df, [january; february])
        /\ Calculate.Days_in_month february = 1
        /\ Calculate.Fixed_cost february = 1%float
        /\ Calculate.Variable_cost february = (-1)%float
        /\ Calculate.Total_cost february = 0%float).
Proof.
  repeat split.
  do 3 eexists. split; [vm_compute; reflexivity | ]. repeat split.
Qed.

(** ** The combined output *)

(** C5, at one plan and one day of readings, import/export variant. The
    table of the plan is its January row and its TOTAL row; the run prints
    the plan's summary once and saves a table that holds the plan's table
    twice. *)
Theorem eiep_table_saved_twice :
  Eip13a.plan_table Fixtures.solar_plan Fixtures.eiep_frame = Ok Fixtures.solar_table
  /\ Eip13a.main [Fixtures.eiep_csv] [Fixtures.solar_plan]
     = ([Printed "Solar" Fixtures.solar_total;
         Saved (Fixtures.solar_table ++ Fixtures.solar_table)], Ok tt).
Proof.
  split; reflexivity.
Qed.

(** ** The frame as a store *)

Lemma index_of_some (name : string) (names : list string) (i : nat) :
  Calculate.index_of name names = Some i ->
  (i < List.length names)%nat /\ nth_error names i = Some name.
Proof.
  revert i. induction names as [ | n names IH]; intros i H; [discriminate | ].
  cbn in H. destruct (String.eqb n name) eqn:E.
  - injection H as <-. apply String.eqb_eq in E. subst n. cbn. split; [lia | reflexivity].
  - destruct (Calculate.index_of name names) as [j | ]; [ | discriminate].
    injection H as <-. destruct (IH j eq_refl) as [Hlt Hnth]. cbn. split; [lia | exact Hnth].
Qed.

Lemma index_of_app (name : string) (names : list string) (extra : string) :
  Calculate.index_of name (names ++ [extra]) =
  match Calculate.index_of name names with
  | Some i => Some i
  | None => if String.eqb extra name then Some (List.length names) else None
  end.
Proof.
  induction names as [ | n names IH]; cbn.
  - destruct (String.eqb extra name); reflexivity.
  - destruct (String.eqb n name); [reflexivity | ]. rewrite IH.
    destruct (Calculate.index_of name names); [reflexivity | ].
    destruct (String.eqb extra name); reflexivity.
Qed.

Lemma nth_set_nth_other {A : Type} (i j : nat) (a d : A) (l : list A) :
  i <> j -> nth j (Calculate.set_nth i a l) d = nth j l d.
Proof.
  revert i j. induction l as [ | x l IH]; intros i j H; [destruct i; reflexivity | ].
  destruct i as [ | i], j as [ | j]; cbn; try reflexivity; try congruence.
  apply IH. congruence.
Qed.

Lemma nth_set_nth_same {A : Type} (i : nat) (a d : A) (l : list A) :
  (i < List.length l)%nat -> nth i (Calculate.set_nth i a l) d = a.
Proof.
  revert i. induction l as [ | x l IH]; intros i H; cbn in H; [lia | ].
  destruct i as [ | i]; cbn; [reflexivity | ]. apply IH. lia.
Qed.

Lemma length_set_nth {A : Type} (i : nat) (a : A) (l : list A) :
  List.length (Calculate.set_nth i a l) = List.length l.
Proof.
  revert i. induction l as [ | x l IH]; intros i; [destruct i; reflexivity | ].
  destruct i as [ | i]; cbn; [reflexivity | ]. now rewrite IH.
Qed.

(** Reading a column of a row after another column was written. *)
Lemma row_get_with_value_other (df : Calculate.frame) (name c : string)
    (values : list Calculate.value) (r : list Calculate.value) (v : Calculate.value) :
  List.length r = List.length (Calculate.columns df) ->
  c <> name ->
  Calculate.row_get (Calculate.set_column df name values)
                    (Calculate.with_value df name r v) c
  = Calculate.row_get df r c.
Proof.
  intros Hlen Hc. unfold Calculate.row_get, Calculate.set_column, Calculate.with_value.
  cbn [Calculate.columns].
  destruct (Calculate.index_of name (Calculate.columns df)) as [i | ] eqn:Hi.
  - destruct (Calculate.index_of c (Calculate.columns df)) as [j | ] eqn:Hj; [ | reflexivity].
    rewrite nth_set_nth_other; [reflexivity | ].
    intros <-. apply index_of_some in Hi, Hj.
    destruct Hi as [_ Hi], Hj as [_ Hj]. congruence.
  - rewrite index_of_app.
    destruct (Calculate.index_of c (Calculate.columns df)) as [j | ] eqn:Hj.
    + apply index_of_some in Hj. destruct Hj as [Hlt _].
      rewrite app_nth1; [reflexivity | lia].
    + destruct (String.eqb name c) eqn:E; [ | reflexivity].
      apply String.eqb_eq in E. congruence.
Qed.

(** Reading the column that was written. *)
Lemma row_get_with_value_same (df : Calculate.frame) (name : string)
    (values : list Calculate.value) (r : list Calculate.value) (v : Calculate.value) :
  List.length r = List.length (Calculate.columns df) ->
  Calculate.row_get (Calculate.set_column df name values)
                    (Calculate.with_value df name r v) name
  = Ok v.
Proof.
  intros Hlen. unfold Calculate.row_get, Calculate.set_column, Calculate.with_value.
  cbn [Calculate.columns].
  destruct (Calculate.index_of name (Calculate.columns df)) as [i | ] eqn:Hi.
  - rewrite Hi. apply index_of_some in Hi. destruct Hi as [Hlt _].
    rewrite nth_set_nth_same; [reflexivity | lia].
  - rewrite index_of_app, Hi, String.eqb_refl.
    rewrite app_nth2; [ | lia]. rewrite Hlen, Nat.sub_diag. reflexivity.
Qed.

Lemma length_with_value (df : Calculate.frame) (name : string)
    (values : list Calculate.value) (r : list Calculate.value) (v : Calculate.value) :
  List.length r = List.length (Calculate.columns df) ->
  List.length (Calculate.with_value df name r v)
  = List.length (Calculate.columns (Calculate.set_column df name values)).
Proof.
  intros Hlen. unfold Calculate.set_column, Calculate.with_value. cbn [Calculate.columns].
  destruct (Calculate.index_of name (Calculate.columns df)).
  - now rewrite length_set_nth.
  - rewrite !length_app. cbn. lia.
Qed.

Lemma rect_set_column (df : Calculate.frame) (name : string)
    (values : list Calculate.value) :
  Calculate.rect df -> Calculate.rect (Calculate.set_column df name values).
Proof.
  intros Hrect r Hr. unfold Calculate.set_column in Hr. cbn [Calculate.data] in Hr.
  apply in_map_iff in Hr. destruct Hr as [[r0 v] [<- Hin]].
  apply in_combine_l in Hin. cbn [fst snd].
  apply length_with_value. now apply Hrect.
Qed.

Lemma length_set_column (df : Calculate.frame) (name : string)
    (values : list Calculate.value) :
  List.length values = List.length (Calculate.data df) ->
  List.length (Calculate.data (Calculate.set_column df name values))
  = List.length (Calculate.data df).
Proof.
  intros H. unfold Calculate.set_column. cbn [Calculate.data].
  rewrite length_map, length_combine. lia.
Qed.

(** A loop over the rows of a frame after a column was written. *)
Lemma mapM_rows_set_column {B : Type} (df : Calculate.frame) (name : string)
    (values : list Calculate.value) (f f' : list Calculate.value -> result B) :
  List.length values = List.length (Calculate.data df) ->
  (forall r v, In r (Calculate.data df) ->
               f' (Calculate.with_value df name r v) = f r) ->
  mapM f' (Calculate.data (Calculate.set_column df name values))
  = mapM f (Calculate.data df).
Proof.
  unfold Calculate.set_column. cbn [Calculate.data].
  generalize (Calculate.with_value df name). intros g.
  generalize (Calculate.data df). intros rows. revert values.
  induction rows as [ | r rows IH]; intros values Hlen H; [reflexivity | ].
  destruct values as [ | v values]; [discriminate | ].
  cbn [combine map mapM fst snd].
  rewrite (H r v (or_introl eq_refl)).
  rewrite (IH values); [reflexivity | cbn in Hlen; lia | ].
  intros r0 v0 Hin. apply H. now right.
Qed.

(** The rows after a column was written, read at that column. *)
Lemma mapM_rows_written {B : Type} (df : Calculate.frame) (name : string)
    (values : list Calculate.value) (f' : list Calculate.value -> result B)
    (h : Calculate.value -> B) :
  List.length values = List.length (Calculate.data df) ->
  (forall r v, In r (Calculate.data df) ->
               f' (Calculate.with_value df name r v) = Ok (h v)) ->
  mapM f' (Calculate.data (Calculate.set_column df name values))
  = Ok (map h values).
Proof.
  unfold Calculate.set_column. cbn [Calculate.data].
  generalize (Calculate.with_value df name). intros g.
  generalize (Calculate.data df). intros rows. revert values.
  induction rows as [ | r rows IH]; intros values Hlen H.
  - destruct values; [reflexivity | discriminate].
  - destruct values as [ | v values]; [discriminate | ].
    cbn [combine map mapM fst snd].
    rewrite (H r v (or_introl eq_refl)). cbn [bind].
    rewrite (IH values); [reflexivity | cbn in Hlen; lia | ].
    intros r0 v0 Hin. apply H. now right.
Qed.

Lemma get_column_set_other (df : Calculate.frame) (name c : string)
    (values : list Calculate.value) :
  Calculate.rect df ->
  List.length values = List.length (Calculate.data df) ->
  c <> name ->
  Calculate.get_column (Calculate.set_column df name values) c
  = Calculate.get_column df c.
Proof.
  intros Hrect Hlen Hc. unfold Calculate.get_column.
  apply mapM_rows_set_column; [exact Hlen | ].
  intros r v Hr. apply row_get_with_value_other; [now apply Hrect | exact Hc].
Qed.

Lemma get_column_set_same (df : Calculate.frame) (name : string)
    (values : list Calculate.value) :
  Calculate.rect df ->
  List.length values = List.length (Calculate.data df) ->
  Calculate.get_column (Calculate.set_column df name values) name = Ok values.
Proof.
  intros Hrect Hlen. unfold Calculate.get_column.
  rewrite (mapM_rows_written df name values _ (fun v => v) Hlen).
  - now rewrite map_id.
  - intros r v Hr. apply row_get_with_value_same. now apply Hrect.
Qed.

(** ** The plans, one after the other, on the frame they share *)

Lemma mapM_ext_in {A B : Type} (f g : A -> result B) (l : list A) :
  (forall a, In a l -> f a = g a) -> mapM f l = mapM g l.
Proof.
  induction l as [ | a l IH]; intros H; [reflexivity | ].
  cbn. rewrite (H a (or_introl eq_refl)), IH; [reflexivity | ].
  intros x Hx. apply H. now right.
Qed.

Lemma mapM_number_of (l : list float) :
  mapM Calculate.number_of (map Calculate.Num l) = Ok l.
Proof.
  induction l as [ | x l IH]; [reflexivity | ]. cbn. now rewrite IH.
Qed.

Lemma row_intervals_with_value (cfg : Calculate.config) (df : Calculate.frame)
    (name : string) (values : list Calculate.value) (r : list Calculate.value)
    (v : Calculate.value) :
  List.length r = List.length (Calculate.columns df) ->
  ~ In name (Calculate.interval_columns cfg) ->
  Calculate.row_intervals (Calculate.set_column df name values)
    (Calculate.interval_columns cfg) (Calculate.with_value df name r v)
  = Calculate.row_intervals df (Calculate.interval_columns cfg) r.
Proof.
  intros Hlen Hname. unfold Calculate.row_intervals. apply mapM_ext_in.
  intros c Hc. rewrite row_get_with_value_other; [reflexivity | exact Hlen | ].
  intros ->. now apply Hname.
Qed.

Lemma daily_cost_of_with_value (cfg : Calculate.config) (df : Calculate.frame)
    (p : Calculate.plan) (name : string) (values : list Calculate.value)
    (r : list Calculate.value) (v : Calculate.value) :
  List.length r = List.length (Calculate.columns df) ->
  Calculate.date_column cfg <> name ->
  ~ In name (Calculate.interval_columns cfg) ->
  Calculate.daily_cost_of cfg (Calculate.set_column df name values) p
    (Calculate.with_value df name r v)
  = Calculate.daily_cost_of cfg df p r.
Proof.
  intros Hlen Hdate Hname. unfold Calculate.daily_cost_of.
  rewrite row_get_with_value_other by assumption.
  now rewrite row_intervals_with_value.
Qed.

(** The month rows do not depend on a column that is neither the date
    column nor an interval column. *)
Lemma wide_month_rows_set_column (cfg : Calculate.config) (df : Calculate.frame)
    (p : Calculate.plan) (name : string) (values : list Calculate.value) :
  Calculate.rect df ->
  List.length values = List.length (Calculate.data df) ->
  Calculate.date_column cfg <> name ->
  ~ In name (Calculate.interval_columns cfg) ->
  Spec.wide_month_rows cfg (Calculate.set_column df name values) p
  = Spec.wide_month_rows cfg df p.
Proof.
  intros Hrect Hlen Hdate Hname. unfold Spec.wide_month_rows.
  rewrite (mapM_rows_set_column df name values (Calculate.daily_cost_of cfg df p)); cycle 1.
  { exact Hlen. }
  { intros r v Hr. apply daily_cost_of_with_value; auto. }
  rewrite (mapM_rows_set_column df name values
             (Calculate.row_intervals df (Calculate.interval_columns cfg))); cycle 1.
  { exact Hlen. }
  { intros r v Hr. rewrite row_intervals_with_value; auto. }
  rewrite get_column_set_other by assumption. reflexivity.
Qed.

Lemma length_row_sums (block : list (list float)) :
  List.length (Fl.row_sums block) = List.length block.
Proof.
  unfold Fl.row_sums. destruct (_ || _); apply length_map.
Qed.

(** What the body of the loop over the plans leaves and returns: the
    frame with the two working columns written, and the month rows that
    the frame gives when it is only read. *)
Lemma plan_step_pure (cfg : Calculate.config) (df : Calculate.frame) (p : Calculate.plan) :
  Calculate.rect df ->
  Calculate.working_columns_free cfg ->
  (result_map snd (Calculate.plan_step cfg df p) = Spec.wide_month_rows cfg df p)
  /\ (forall st, Calculate.plan_step cfg df p = Ok st ->
        exists kwh cost,
          fst st = Calculate.set_column (Calculate.set_column df "daily_kwh" kwh)
                                        "daily_cost" cost
          /\ List.length kwh = List.length (Calculate.data df)
          /\ List.length cost = List.length (Calculate.data df)).
Proof.
  intros Hrect [Hd1 [Hd2 [Hi1 Hi2]]].
  unfold Calculate.plan_step, Spec.wide_month_rows.
  destruct (mapM (Calculate.daily_cost_of cfg df p) (Calculate.data df))
    as [costs | e] eqn:Hcosts; cbn [bind result_map]; [ | split; [reflexivity | discriminate]].
  destruct (mapM (Calculate.row_intervals df (Calculate.interval_columns cfg))
                 (Calculate.data df))
    as [quantities | e] eqn:Hq; cbn [bind result_map];
    [ | split; [reflexivity | discriminate]].
  pose proof (mapM_length _ _ _ Hcosts) as Lc.
  pose proof (mapM_length _ _ _ Hq) as Lk.
  rewrite <- (length_row_sums quantities) in Lk.
  set (kwhs := Fl.row_sums quantities) in *.
  set (df1 := Calculate.set_column df "daily_kwh" (map Calculate.Num kwhs)).
  assert (Hrect1 : Calculate.rect df1) by now apply rect_set_column.
  assert (Hlen1 : List.length (Calculate.data df1) = List.length (Calculate.data df)).
  { apply length_set_column. now rewrite length_map. }
  assert (Hk : List.length (map Calculate.Num kwhs) = List.length (Calculate.data df))
    by now rewrite length_map.
  assert (Hc : List.length (map Calculate.Num costs) = List.length (Calculate.data df1))
    by (rewrite length_map; congruence).
  subst df1.
  rewrite (get_column_set_other _ "daily_cost" (Calculate.date_column cfg)) by assumption.
  rewrite (get_column_set_other df "daily_kwh" (Calculate.date_column cfg)) by assumption.
  rewrite (get_column_set_other _ "daily_cost" "daily_kwh") by (try assumption; discriminate).
  rewrite (get_column_set_same df "daily_kwh") by assumption.
  rewrite (get_column_set_same _ "daily_cost") by assumption.
  destruct (Calculate.get_column df (Calculate.date_column cfg)) as [dates | e];
    cbn [bind result_map]; [ | split; [reflexivity | discriminate]].
  destruct (mapM Calculate.period_of dates) as [periods | e];
    cbn [bind result_map]; [ | split; [reflexivity | discriminate]].
  rewrite !mapM_number_of. cbn [bind result_map snd]. split; [reflexivity | ].
  intros st H. injection H as <-. cbn [fst].
  exists (map Calculate.Num kwhs), (map Calculate.Num costs).
  split; [reflexivity | ]. split; [exact Hk | congruence].
Qed.

Lemma expected_fields_header (f : Calculate.csv_file) :
  (List.length (Calculate.header f) <= Calculate.expected_fields f)%nat.
Proof.
  unfold Calculate.expected_fields. destruct (Calculate.records f); lia.
Qed.

Lemma read_csv_rect (f : Calculate.csv_file) (df : Calculate.frame) :
  Calculate.read_csv f = Ok df -> Calculate.rect df.
Proof.
  unfold Calculate.read_csv. intros H. bind_inv H. injection H as <-.
  intros r Hr. cbn [Calculate.data Calculate.columns] in Hr |- *.
  apply in_map_iff in Hr. destruct Hr as [r0 [<- Hr0]].
  destruct (mapM_In _ _ _ Hv r0 Hr0) as [line [_ Hline]].
  destruct (read_line_raw _ _ _ Hline) as [Hlen _].
  pose proof (expected_fields_header f). rewrite length_skipn. lia.
Qed.

Lemma convert_columns_rect (conv : Calculate.value -> result Calculate.value)
    (names : list string) :
  forall df df', Calculate.rect df ->
  Calculate.convert_columns conv df names = Ok df' -> Calculate.rect df'.
Proof.
  induction names as [ | n names IH]; intros df df' Hrect H.
  - cbn in H. now injection H as <-.
  - cbn [Calculate.convert_columns] in H. apply bind_ok in H.
    destruct H as [df1 [Hconv H]]. apply (IH df1); [ | exact H].
    unfold Calculate.convert_column in Hconv. bind_inv Hconv.
    injection Hconv as <-. now apply rect_set_column.
Qed.

(** The frame that a run costs every plan on has a value for every column
    in every row. *)
Lemma load_rect (cfg : Calculate.config) (f : Calculate.csv_file)
    (df0 df : Calculate.frame) :
  Calculate.read_csv f = Ok df0 -> Calculate.load cfg df0 = Ok df -> Calculate.rect df.
Proof.
  intros Hread Hload. apply read_csv_rect in Hread. unfold Calculate.load in Hload.
  destruct (negb (Calculate.has_column df0 (Calculate.date_column cfg))); [discriminate | ].
  apply bind_ok in Hload. destruct Hload as [df1 [Hconv Hload]].
  assert (Hrect1 : Calculate.rect df1).
  { unfold Calculate.convert_column in Hconv. bind_inv Hconv.
    injection Hconv as <-. now apply rect_set_column. }
  destruct (filter _ _) in Hload; [ | discriminate].
  exact (convert_columns_rect _ _ _ _ Hrect1 Hload).
Qed.

Lemma snd_run_bind {R A B : Type} (m : run R A) (k : A -> run R B) :
  snd (run_bind m k) = match snd m with
                       | Ok a => snd (k a)
                       | Err e => Err e
                       end.
Proof.
  destruct m as [t [a | e]]; cbn; [ | reflexivity]. now destruct (k a).
Qed.

Lemma wide_plan_loop_from (cfg : Calculate.config) (df0 : Calculate.frame) :
  Calculate.working_columns_free cfg ->
  forall plans df acc,
  Calculate.rect df ->
  (forall p, Spec.wide_month_rows cfg df p = Spec.wide_month_rows cfg df0 p) ->
  snd (Calculate.plan_loop cfg plans df acc)
  = (tables <- mapM (Spec.wide_table cfg df0) plans ;; Ok (acc ++ tables)).
Proof.
  intros Hfree plans. induction plans as [ | p plans IH]; intros df acc Hrect Hsame.
  - cbn. now rewrite app_nil_r.
  - cbn [Calculate.plan_loop mapM]. rewrite snd_run_bind. cbn [lift snd].
    destruct (plan_step_pure cfg df p Hrect Hfree) as [Hrows Hframe].
    unfold Spec.wide_table at 1. rewrite <- Hsame, <- Hrows.
    destruct (Calculate.plan_step cfg df p) as [st | e]; cbn [result_map bind];
      [ | reflexivity].
    rewrite snd_run_bind. cbn [lift snd].
    destruct (Calculate.total_row p (snd st)) as [total | e]; cbn [bind];
      [ | reflexivity].
    rewrite snd_run_bind. cbn [emit snd].
    destruct (Hframe st eq_refl) as [kwh [cost [Hst [Hk Hc]]]].
    destruct Hfree as [Hd1 [Hd2 [Hi1 Hi2]]].
    rewrite IH.
    + destruct (mapM (Spec.wide_table cfg df0) plans) as [tables | e]; cbn [bind];
        [ | reflexivity].
      now rewrite <- app_assoc.
    + rewrite Hst. now do 2 apply rect_set_column.
    + intros p'. rewrite Hst.
      rewrite wide_month_rows_set_column; auto.
      * rewrite wide_month_rows_set_column; auto.
      * now apply rect_set_column.
      * rewrite length_set_column; congruence.
Qed.

(** In calculate.py each plan is costed on the frame the earlier plans
    wrote their two working columns to. When the configured date and
    interval columns are not these columns, the results after the loop
    over the plans are, in plan order, one table per plan, each the table
    the plan gives on the loaded frame by itself; and the run fails with
    the error of the first plan whose table does not compute. *)
Theorem wide_plans_independent (cfg : Calculate.config) (df : Calculate.frame)
    (rate_plans : list Calculate.plan) :
  Calculate.rect df ->
  Calculate.working_columns_free cfg ->
  (forall p, Calculate.plan_table cfg df p = Spec.wide_table cfg df p)
  /\ snd (Calculate.plan_loop cfg rate_plans df [])
     = mapM (Calculate.plan_table cfg df) rate_plans.
Proof.
  intros Hrect Hfree.
  assert (Htable : forall p, Calculate.plan_table cfg df p = Spec.wide_table cfg df p).
  { intros p. unfold Calculate.plan_table, Spec.wide_table.
    destruct (plan_step_pure cfg df p Hrect Hfree) as [Hrows _]. rewrite <- Hrows.
    destruct (Calculate.plan_step cfg df p); reflexivity. }
  split; [exact Htable | ].
  rewrite (wide_plan_loop_from cfg df Hfree rate_plans df [] Hrect (fun p => eq_refl)).
  rewrite (mapM_ext_in _ _ rate_plans (fun p _ => Htable p)).
  destruct (mapM (Spec.wide_table cfg df) rate_plans); reflexivity.
Qed.

(** A flat and a banded plan, one after the other, on the same frame. *)
Lemma wide_plans_independent_witness :
  snd (Calculate.plan_loop Fixtures.wide_config
         [Fixtures.flat_plan; Fixtures.banded_plan] Fixtures.wide_frame [])
  = mapM (Calculate.plan_table Fixtures.wide_config Fixtures.wide_frame)
         [Fixtures.flat_plan; Fixtures.banded_plan].
Proof.
  refine (proj2 (wide_plans_independent Fixtures.wide_config Fixtures.wide_frame
                   [Fixtures.flat_plan; Fixtures.banded_plan] _ _)).
  - intros r [<- | [<- | [<- | []]]]; reflexivity.
  - repeat split; try discriminate; cbn; intros [H | [H | []]]; discriminate H.
Defined.

(** In eip13a.py the results after the loop over the plans hold, in plan
    order, the table of each plan twice in a row. *)
Theorem eiep_plans_twice (rate_plans : list Eip13a.plan) (df_all : list Eip13a.interval) :
  forall all_results,
  snd (Eip13a.plan_loop rate_plans df_all all_results)
  = (tables <- mapM (fun p => Eip13a.plan_table p df_all) rate_plans ;;
     Ok (all_results ++ flat_map (fun t => [t; t]) tables)).
Proof.
  induction rate_plans as [ | p plans IH]; intros acc.
  - cbn. now rewrite app_nil_r.
  - cbn [Eip13a.plan_loop mapM]. rewrite snd_run_bind. cbn [lift snd].
    unfold Eip13a.plan_table at 1.
    destruct (Eip13a.monthly_rows p df_all) as [rows | e]; cbn [bind]; [ | reflexivity].
    rewrite snd_run_bind. cbn [lift snd].
    destruct (Eip13a.total_row p rows) as [total | e]; cbn [bind]; [ | reflexivity].
    rewrite snd_run_bind. cbn [emit snd]. rewrite IH.
    destruct (mapM (fun p0 => Eip13a.plan_table p0 df_all) plans) as [tables | e];
      cbn [bind]; [ | reflexivity].
    cbn [flat_map]. now rewrite <- !app_assoc.
Qed.

(** With an interval column named daily_cost the second plan reads what
    the first plan wrote: its table is not the one it gives on the loaded
    frame. *)
Lemma wide_plans_clash :
  exists first second alone,
    snd (Calculate.plan_loop Fixtures.clash_config [Fixtures.flat_plan; Fixtures.flat_plan]
           Fixtures.clash_frame []) = Ok [first; second]
    /\ Calculate.plan_table Fixtures.clash_config Fixtures.clash_frame Fixtures.flat_plan
       = Ok alone
    /\ first = alone
    /\ map Calculate.Monthly_kWh alone = [10; 10]%float
    /\ map Calculate.Monthly_kWh second = [4; 4]%float.
Proof.
  do 3 eexists. split; [vm_compute; reflexivity | ]. repeat split.
Qed.

(** ** Quantities that do not parse *)

(** In the import/export variant a quantity that is not a number is 0.0
    once the file is loaded. *)
Lemma loaded_kwh_of_nan (raw : Eip13a.raw_row) (loaded : list Eip13a.reading)
    (rd : Eip13a.reading) :
  PrimFloat.is_nan (Eip13a.raw_kwh raw) = true ->
  Eip13a.load_eiep13a [raw] = Ok loaded ->
  In rd loaded ->
  Eip13a.kwh rd = 0%float.
Proof.
  intros Hnan Hload. apply load_eiep13a_ok in Hload. destruct Hload as [_ ->].
  cbn [filter]. destruct (Eip13a.is_det raw); cbn [map In]; [ | tauto].
  intros [<- | []]. cbn. unfold Eip13a.fillna0. now rewrite Hnan.
Qed.

(** The sum of a series takes a NaN for a zero. *)
Lemma series_sum_nan (before after : list float) (x : float) :
  PrimFloat.is_nan x = true ->
  Fl.series_sum (before ++ x :: after) = Fl.series_sum (before ++ Fl.zero :: after).
Proof.
  intros Hnan. unfold Fl.series_sum. rewrite !fold_left_app. cbn [fold_left].
  rewrite Hnan. reflexivity.
Qed.

(** * More of the two programs *)

(** ** Time strings *)

Lemma two_digit_in (n : Z) : 0 <= n < 100 -> In n Spec.two_digit.
Proof.
  intros H. unfold Spec.two_digit. apply in_map_iff. exists (Z.to_nat n).
  split; [lia | ]. apply in_seq. lia.
Qed.

Lemma hhmm_table :
  forallb (fun h => forallb (fun m => Spec.parses_to h m) Spec.two_digit) Spec.two_digit
  = true.
Proof. vm_compute. reflexivity. Qed.

(** A time written HH:MM with two digits each parses to 60 * HH + MM
    minutes, in both programs; nothing keeps the hours under 24 or the
    minutes under 60. *)
Theorem parse_time_str_hhmm (h m : Z) :
  0 <= h < 100 -> 0 <= m < 100 ->
  Calculate.parse_time_str (Spec.hhmm h m) = Ok (60 * h + m)
  /\ Eip13a.parse_time_str (Spec.hhmm h m) = Ok (60 * h + m).
Proof.
  intros Hh Hm.
  pose proof hhmm_table as T. rewrite forallb_forall in T.
  specialize (T h (two_digit_in h Hh)). rewrite forallb_forall in T.
  specialize (T m (two_digit_in m Hm)). unfold Spec.parses_to in T.
  change Eip13a.parse_time_str with Calculate.parse_time_str.
  destruct (Calculate.parse_time_str (Spec.hhmm h m)) as [td | e]; [ | discriminate].
  apply Z.eqb_eq in T. subst td. split; reflexivity.
Qed.

(** 25 hours and 70 minutes: 1570 minutes. *)
Lemma parse_time_str_hhmm_witness :
  Calculate.parse_time_str "25:70" = Ok 1570.
Proof.
  refine (proj1 (parse_time_str_hhmm 25 70 _ _)); lia.
Defined.

Lemma split_length (sep : ascii) (s : string) :
  List.length (Str.split sep s) = S (Spec.count_char sep s).
Proof.
  induction s as [ | c s IH]; [reflexivity | ].
  cbn [Str.split Spec.count_char]. destruct (Ascii.eqb c sep).
  - cbn. now rewrite IH.
  - destruct (Str.split sep s) as [ | w ws]; [discriminate IH | exact IH].
Qed.

(** A time string that does not have exactly one colon is a ValueError,
    in both programs. *)
Theorem parse_time_str_colons (time_str : string) :
  Spec.count_char ":" time_str <> 1%nat ->
  Calculate.parse_time_str time_str = Err ValueError
  /\ Eip13a.parse_time_str time_str = Err ValueError.
Proof.
  intros H. change Eip13a.parse_time_str with Calculate.parse_time_str.
  unfold Calculate.parse_time_str.
  pose proof (split_length ":" time_str) as L.
  destruct (Str.split ":" time_str) as [ | a [ | b [ | c l]]]; cbn in L;
    try (split; reflexivity).
  exfalso. apply H. lia.
Qed.

(** A time with seconds. *)
Lemma parse_time_str_colons_witness :
  Eip13a.parse_time_str "07:30:00" = Err ValueError.
Proof.
  refine (proj2 (parse_time_str_colons "07:30:00" _)). cbn. discriminate.
Defined.

(** ** Bands *)

Lemma mapM_app {A B : Type} (f : A -> result B) (l1 l2 : list A) :
  mapM f (l1 ++ l2)
  = (r1 <- mapM f l1 ;; r2 <- mapM f l2 ;; Ok (r1 ++ r2)).
Proof.
  induction l1 as [ | a l1 IH]; cbn.
  - destruct (mapM f l2); reflexivity.
  - destruct (f a) as [b | e]; cbn; [ | reflexivity]. rewrite IH.
    destruct (mapM f l1) as [r1 | e]; cbn; [ | reflexivity].
    destruct (mapM f l2); reflexivity.
Qed.

Lemma band_step_rate_at (total q : float) (t : timedelta)
    (ranges : list Calculate.band_range) :
  Calculate.band_step total q t ranges =
  match Spec.rate_at t ranges with
  | Some r => (total + q * r)%float
  | None => total
  end.
Proof.
  rewrite band_step_first_band. unfold Spec.rate_at.
  destruct (Spec.first_band t ranges) as [[[s e] r] | ]; reflexivity.
Qed.

(** The cost of a day's quantities on resolved bands depends on the bands
    only through the rate that applies at each time. *)
Lemma slots_cost_rate_at (ranges ranges' : list Calculate.band_range)
    (slots : list (timedelta * float)) :
  (forall t, Spec.rate_at t ranges = Spec.rate_at t ranges') ->
  forall total,
  fold_left (fun total_cost it => Calculate.band_step total_cost (snd it) (fst it) ranges)
            slots total
  = fold_left (fun total_cost it => Calculate.band_step total_cost (snd it) (fst it) ranges')
              slots total.
Proof.
  intros H. induction slots as [ | it slots IH]; intros total; [reflexivity | ].
  cbn [fold_left]. rewrite !band_step_rate_at, H. apply IH.
Qed.

Lemma eip13a_cost_prefix (q : float) (t : timedelta) (pre l l' : list band) :
  Eip13a.calculate_band_cost q t l = Eip13a.calculate_band_cost q t l' ->
  Eip13a.calculate_band_cost q t (pre ++ l) = Eip13a.calculate_band_cost q t (pre ++ l').
Proof.
  intros H. induction pre as [ | b pre IH]; [exact H | ].
  cbn [app Eip13a.calculate_band_cost].
  destruct (Eip13a.parse_time_str (start b)); cbn [bind]; [ | reflexivity].
  destruct (Eip13a.parse_time_str (end_ b)); cbn [bind]; [ | reflexivity].
  now rewrite IH.
Qed.

Lemma find_skip {A : Type} (f : A -> bool) (pre post : list A) (x : A) :
  f x = false -> find f (pre ++ x :: post) = find f (pre ++ post).
Proof.
  intros Hx. induction pre as [ | a pre IH]; cbn; [now rewrite Hx | ].
  destruct (f a); [reflexivity | exact IH].
Qed.

(** An end of 00:00 and an end of 24:00 are the same end: a band costs the
    same written either way, wherever it stands in the list, in both
    programs. *)
Theorem midnight_end_either_way (pre post : list band) (s : string) (r : float) :
  (forall q t,
      Eip13a.calculate_band_cost q t
        (pre ++ {| start := s; end_ := "00:00"; rate := r |} :: post)
      = Eip13a.calculate_band_cost q t
          (pre ++ {| start := s; end_ := "24:00"; rate := r |} :: post))
  /\ (forall row interval_times table table' is_weekend,
        band_table_item table is_weekend
        = Ok (pre ++ {| start := s; end_ := "00:00"; rate := r |} :: post) ->
        band_table_item table' is_weekend
        = Ok (pre ++ {| start := s; end_ := "24:00"; rate := r |} :: post) ->
        Calculate.calculate_band_cost row interval_times table is_weekend
        = Calculate.calculate_band_cost row interval_times table' is_weekend).
Proof.
  split.
  - intros q t. apply eip13a_cost_prefix. cbn [Eip13a.calculate_band_cost start end_ rate].
    destruct (Eip13a.parse_time_str s) as [st | e]; cbn [bind]; [ | reflexivity].
    change (Eip13a.parse_time_str "00:00") with (@Ok timedelta 0).
    change (Eip13a.parse_time_str "24:00") with (@Ok timedelta 1440).
    reflexivity.
  - intros row times table table' w H H'. unfold Calculate.calculate_band_cost.
    rewrite H, H'. cbn [bind]. rewrite !mapM_app.
    destruct (mapM Calculate.resolve_band pre) as [rp | e]; cbn [bind]; [ | reflexivity].
    cbn [mapM]. unfold Calculate.resolve_band at 1 3. cbn [start end_ rate].
    destruct (Calculate.parse_time_str s) as [st | e]; cbn [bind]; [ | reflexivity].
    change (Calculate.parse_time_str "00:00") with (@Ok timedelta 0).
    change (Calculate.parse_time_str "24:00") with (@Ok timedelta 1440).
    cbn [bind].
    destruct (mapM Calculate.resolve_band post) as [rq | e]; cbn [bind]; [ | reflexivity].
    f_equal. apply slots_cost_rate_at. intros t. unfold Spec.rate_at, Spec.first_band.
    induction rp as [ | x rp IH]; cbn [app find].
    + cbn [Spec.in_window]. unfold Spec.window_end. cbn [Z.eqb]. unfold day_end.
      destruct ((st <=? t) && (t <? 1440)); reflexivity.
    + destruct (Spec.in_window t x); [reflexivity | exact IH].
Qed.

Lemma resolve_band_inv (b : band) (s e : timedelta) (r : float) :
  Calculate.resolve_band b = Ok (s, e, r) ->
  Calculate.parse_time_str (start b) = Ok s
  /\ Calculate.parse_time_str (end_ b) = Ok e
  /\ rate b = r.
Proof.
  unfold Calculate.resolve_band. intros H. bind_inv H.
  injection H as -> -> ->. now repeat split.
Qed.

(** A band that resolves and does not hold the interval is passed over by
    the evaluator of eip13a.py. *)
Lemma eip13a_cost_skip (q : float) (t : timedelta) (b : band) (rest : list band)
    (x : Calculate.band_range) :
  Calculate.resolve_band b = Ok x -> Spec.in_window t x = false ->
  Eip13a.calculate_band_cost q t (b :: rest) = Eip13a.calculate_band_cost q t rest.
Proof.
  destruct x as [[s e] r]. intros Hb Hw.
  apply resolve_band_inv in Hb. destruct Hb as [Hs [He _]].
  cbn [Eip13a.calculate_band_cost]. change Eip13a.parse_time_str with Calculate.parse_time_str.
  rewrite Hs, He. cbn [bind]. cbn in Hw. unfold Spec.window_end in Hw. now rewrite Hw.
Qed.

(** A band that wraps past midnight (its end is not after its start, and
    is not 00:00) holds no time of the day: the cost is what it is without
    the band, wherever it stands in the list, in both programs. *)
Theorem wrapping_band_is_dead (b : band) (s e : timedelta) (r : float)
    (pre post : list band) :
  Calculate.resolve_band b = Ok (s, e, r) ->
  e <> 0 -> e <= s ->
  (forall q t,
      Eip13a.calculate_band_cost q t (pre ++ b :: post)
      = Eip13a.calculate_band_cost q t (pre ++ post))
  /\ (forall row interval_times table table' is_weekend,
        band_table_item table is_weekend = Ok (pre ++ b :: post) ->
        band_table_item table' is_weekend = Ok (pre ++ post) ->
        Calculate.calculate_band_cost row interval_times table is_weekend
        = Calculate.calculate_band_cost row interval_times table' is_weekend).
Proof.
  intros Hb He Hes.
  assert (Hdead : forall t, Spec.in_window t (s, e, r) = false).
  { intros t. cbn. unfold Spec.window_end.
    destruct (e =? 0) eqn:E; [apply Z.eqb_eq in E; contradiction | ].
    apply andb_false_iff. destruct (Z.leb_spec s t); [right | now left].
    apply Z.ltb_ge. lia. }
  split.
  - intros q t. apply eip13a_cost_prefix. now apply (eip13a_cost_skip q t b post (s, e, r)).
  - intros row times table table' w H H'. unfold Calculate.calculate_band_cost.
    rewrite H, H'. cbn [bind]. rewrite !mapM_app.
    destruct (mapM Calculate.resolve_band pre) as [rp | e0]; cbn [bind]; [ | reflexivity].
    cbn [mapM]. rewrite Hb. cbn [bind].
    destruct (mapM Calculate.resolve_band post) as [rq | e0]; cbn [bind]; [ | reflexivity].
    f_equal. apply slots_cost_rate_at. intros t. unfold Spec.rate_at, Spec.first_band.
    now rewrite (find_skip _ rp rq (s, e, r) (Hdead t)).
Qed.

(** A band from 22:00 to 06:00 after the three bands of the day. *)
Lemma wrapping_band_is_dead_witness :
  Eip13a.calculate_band_cost 5 1380
    ([Fixtures.night; Fixtures.daytime] ++ Fixtures.overnight :: [Fixtures.evening])
  = Eip13a.calculate_band_cost 5 1380
      ([Fixtures.night; Fixtures.daytime] ++ [Fixtures.evening]).
Proof.
  refine (proj1 (wrapping_band_is_dead Fixtures.overnight 1320 360 0.05%float
                   [Fixtures.night; Fixtures.daytime] [Fixtures.evening] eq_refl _ _)
                5%float 1380);
    lia.
Defined.

Lemma covers_from_before (ranges : list Calculate.band_range) :
  forall from t, Spec.covers_from from ranges -> t < from ->
  filter (Spec.in_window t) ranges = [].
Proof.
  induction ranges as [ | [[s e] r] ranges IH]; intros from t H Ht; [reflexivity | ].
  cbn [Spec.covers_from] in H. destruct H as [-> [Hlt Hrest]].
  cbn [filter]. replace (Spec.in_window t (from, e, r)) with false.
  - apply (IH (Spec.window_end e)); [exact Hrest | lia].
  - symmetry. cbn. apply andb_false_iff. left. apply Z.leb_gt. lia.
Qed.

Lemma covers_from_once (ranges : list Calculate.band_range) :
  forall from t, Spec.covers_from from ranges -> from <= t < day_end ->
  List.length (filter (Spec.in_window t) ranges) = 1%nat.
Proof.
  induction ranges as [ | [[s e] r] ranges IH]; intros from t H Ht.
  - cbn in H. lia.
  - cbn [Spec.covers_from] in H. destruct H as [-> [Hlt Hrest]]. cbn [filter].
    destruct (Spec.in_window t (from, e, r)) eqn:Hw.
    + cbn [List.length]. f_equal.
      rewrite (covers_from_before ranges (Spec.window_end e) t Hrest); [reflexivity | ].
      cbn in Hw. apply andb_true_iff in Hw. destruct Hw as [_ Hw].
      now apply Z.ltb_lt in Hw.
    + apply (IH (Spec.window_end e)); [exact Hrest | ].
      cbn in Hw. apply andb_false_iff in Hw. destruct Hw as [Hw | Hw].
      * apply Z.leb_gt in Hw. lia.
      * apply Z.ltb_ge in Hw. lia.
Qed.

(** When the bands follow one another from 00:00 to 24:00, every time of
    the day lies in the window of exactly one band, and the evaluator
    charges that band's rate: no interval of the day falls through to a
    cost of zero. So in both programs. *)
Theorem contiguous_bands_cover_the_day (q : float) (t : timedelta)
    (bands : list band) (ranges : list Calculate.band_range) :
  mapM Calculate.resolve_band bands = Ok ranges ->
  Spec.covers_from 0 ranges ->
  0 <= t < 1440 ->
  List.length (filter (Spec.in_window t) ranges) = 1%nat
  /\ exists s e r,
       In (s, e, r) ranges
       /\ s <= t < (if e =? 0 then 1440 else e)
       /\ Eip13a.calculate_band_cost q t bands = Ok (q * r)%float
       /\ forall total, Calculate.band_step total q t ranges = (total + q * r)%float.
Proof.
  intros Hres Hcov Ht.
  pose proof (covers_from_once ranges 0 t Hcov Ht) as Hone.
  split; [exact Hone | ].
  destruct (find (Spec.in_window t) ranges) as [[[s e] r] | ] eqn:Hfind.
  - exists s, e, r. pose proof (find_some _ _ Hfind) as [Hin Hw].
    split; [exact Hin | ]. split; [now apply in_window_iff in Hw | ]. split.
    + rewrite (eip13a_band_cost_evaluate q t bands ranges Hres).
      unfold Spec.evaluate, Spec.first_band. now rewrite Hfind.
    + intros total. rewrite band_step_first_band. unfold Spec.first_band. now rewrite Hfind.
  - exfalso. destruct (filter (Spec.in_window t) ranges) as [ | x l] eqn:Hf; [discriminate | ].
    assert (Hx : In x (filter (Spec.in_window t) ranges)) by (rewrite Hf; now left).
    apply filter_In in Hx. destruct Hx as [Hin Hw].
    now rewrite (find_none _ _ Hfind x Hin) in Hw.
Qed.

(** Night, day and evening bands, at 08:00. *)
Lemma contiguous_bands_cover_the_day_witness :
  List.length (filter (Spec.in_window 480) [(0, 420, 0.10%float); (420, 1260, 0.25%float);
                                            (1260, 0, 0.15%float)]) = 1%nat.
Proof.
  refine (proj1 (contiguous_bands_cover_the_day 5 480
                   [Fixtures.night; Fixtures.daytime; Fixtures.evening] _ eq_refl _ _)).
  - cbn. unfold Spec.window_end, day_end. cbn. repeat split; lia.
  - lia.
Defined.

Lemma mapM_err_in {A B : Type} (f : A -> result B) (l : list A) (a : A) (e : exn) :
  In a l -> f a = Err e -> exists e', mapM f l = Err e'.
Proof.
  induction l as [ | x l IH]; intros Hin Ha; [destruct Hin | ].
  cbn. destruct Hin as [-> | Hin].
  - rewrite Ha. now exists e.
  - destruct (f x) as [b | e0]; cbn; [ | now exists e0].
    destruct (IH Hin Ha) as [e' ->]. now exists e'.
Qed.

(** The two programs resolve the bands at different times. eip13a.py
    resolves a band when the scan reaches it: once a band holds the
    interval, what follows it in the list is not looked at, malformed or
    not. calculate.py resolves the whole list before it costs a day: one
    malformed band anywhere in the list fails the day, whatever its
    quantities. *)
Theorem bands_resolved_lazily_or_eagerly :
  (forall q t pre resolved b s e r post,
      mapM Calculate.resolve_band pre = Ok resolved ->
      (forall x, In x resolved -> Spec.in_window t x = false) ->
      Calculate.resolve_band b = Ok (s, e, r) ->
      Spec.in_window t (s, e, r) = true ->
      Eip13a.calculate_band_cost q t (pre ++ b :: post) = Ok (q * r)%float)
  /\ (forall row interval_times table is_weekend applicable b e,
        band_table_item table is_weekend = Ok applicable ->
        In b applicable ->
        Calculate.resolve_band b = Err e ->
        exists e', Calculate.calculate_band_cost row interval_times table is_weekend
                   = Err e').
Proof.
  split.
  - intros q t pre. induction pre as [ | p pre IH];
      intros resolved b s e r post Hpre Hnone Hb Hw.
    + cbn [app]. apply resolve_band_inv in Hb. destruct Hb as [Hs [He <-]].
      cbn [Eip13a.calculate_band_cost].
      change Eip13a.parse_time_str with Calculate.parse_time_str.
      rewrite Hs, He. cbn [bind]. cbn in Hw. unfold Spec.window_end in Hw. now rewrite Hw.
    + apply mapM_cons_ok in Hpre. destruct Hpre as [x [xs [Hp [Hpre ->]]]].
      cbn [app]. rewrite (eip13a_cost_skip q t p (pre ++ b :: post) x Hp).
      * apply (IH xs b s e r post Hpre); auto. intros y Hy. apply Hnone. now right.
      * apply Hnone. now left.
  - intros row times table w applicable b e Htable Hin Hb.
    unfold Calculate.calculate_band_cost. rewrite Htable. cbn [bind].
    destruct (mapM_err_in _ _ _ _ Hin Hb) as [e' ->]. now exists e'.
Qed.

(** A malformed band after the band that holds 06:30 in eip13a.py. *)
Lemma bands_resolved_lazily_or_eagerly_witness :
  Eip13a.calculate_band_cost 5 390 ([] ++ Fixtures.early :: [Fixtures.malformed])
  = Ok (5 * 0.10)%float.
Proof.
  refine (proj1 bands_resolved_lazily_or_eagerly 5%float 390 [] [] Fixtures.early
            0 420 0.10%float [Fixtures.malformed] eq_refl _ eq_refl eq_refl).
  intros x [].
Defined.

(** ** Loading an EIEP13A file *)

(** What [load_eiep13a] keeps and what it makes of it. A file loads when
    the four columns the program reads as text are text, and fails with an
    AttributeError when one of them is not. Every reading of a file that
    loads comes from a detail record of the file (rec_type DET, whatever
    its case and the blanks around it), has that record's start time, its
    direction trimmed and in upper case, and a quantity that is not NaN;
    there is one for every detail record, so no more than the file has
    rows. *)
Theorem load_eiep13a_readings (csvfile : list Eip13a.raw_row) :
  Eip13a.load_eiep13a csvfile
  = (if Spec.reads_as_text csvfile
     then Ok (map Eip13a.cleaned (filter Eip13a.is_det csvfile))
     else Err AttributeError)
  /\ forall loaded, Eip13a.load_eiep13a csvfile = Ok loaded ->
       (List.length loaded <= List.length csvfile)%nat
       /\ forall rd, In rd loaded ->
            PrimFloat.is_nan (Eip13a.kwh rd) = false
            /\ exists raw,
                 In raw csvfile
                 /\ Str.upper (Str.strip (Eip13a.raw_rec_type raw)) = "DET"
                 /\ Eip13a.read_start rd = Eip13a.raw_read_start raw
                 /\ Eip13a.energy_flow_direction rd
                    = Str.upper (Str.strip (Eip13a.raw_energy_flow_direction raw)).
Proof.
  split.
  - destruct (Spec.reads_as_text csvfile) eqn:E;
      [now apply load_eiep13a_text | now apply load_eiep13a_not_text].
  - intros loaded Hload. apply load_eiep13a_ok in Hload. destruct Hload as [_ ->]. split.
    + rewrite length_map. apply filter_length_le.
    + intros rd Hin. apply in_map_iff in Hin. destruct Hin as [raw [<- Hraw]].
      apply filter_In in Hraw. destruct Hraw as [Hin Hdet]. cbn. split.
      * unfold Eip13a.fillna0. destruct (PrimFloat.is_nan (Eip13a.raw_kwh raw)) eqn:E;
          [reflexivity | exact E].
      * exists raw. repeat split; [exact Hin | now apply String.eqb_eq].
Qed.

(** The fixture file: a header and two detail records. *)
Lemma load_eiep13a_readings_witness :
  exists loaded,
    Eip13a.load_eiep13a Fixtures.eiep_csv = Ok loaded
    /\ (List.length loaded <= 3)%nat.
Proof.
  eexists. split; [reflexivity | ].
  exact (proj1 (proj2 (load_eiep13a_readings Fixtures.eiep_csv) _ eq_refl)).
Defined.

Lemma filter_is_det_skip (pre post : list Eip13a.raw_row) (r : Eip13a.raw_row) :
  Eip13a.is_det r = false ->
  filter Eip13a.is_det (pre ++ r :: post) = filter Eip13a.is_det (pre ++ post).
Proof.
  intros H. rewrite !filter_app. cbn [filter]. now rewrite H.
Qed.

(** A row that is not a detail record (a header, a trailer) has no bearing
    on the run, wherever it stands in whichever file, as long as its file
    reads as text with it and without it: it can only decide whether the
    columns of its file are text. *)
Theorem eiep_other_records_ignored (before after : list (list Eip13a.raw_row))
    (pre post : list Eip13a.raw_row) (r : Eip13a.raw_row)
    (rate_plans : list Eip13a.plan) :
  Str.upper (Str.strip (Eip13a.raw_rec_type r)) <> "DET" ->
  Spec.reads_as_text (pre ++ r :: post) = true ->
  Spec.reads_as_text (pre ++ post) = true ->
  Eip13a.main (before ++ (pre ++ r :: post) :: after) rate_plans
  = Eip13a.main (before ++ (pre ++ post) :: after) rate_plans.
Proof.
  intros H Hwith Hwithout. apply String.eqb_neq in H.
  assert (E : Eip13a.load_eiep13a (pre ++ r :: post) = Eip13a.load_eiep13a (pre ++ post)).
  { rewrite (load_eiep13a_text _ Hwith), (load_eiep13a_text _ Hwithout).
    now rewrite (filter_is_det_skip pre post r H). }
  unfold Eip13a.main. rewrite !mapM_app. cbn [mapM]. now rewrite E.
Qed.

(** The fixture file with and without a trailer row after its records. *)
Lemma eiep_other_records_ignored_witness :
  Eip13a.main ([] ++ (Fixtures.eiep_csv
                      ++ Fixtures.text_row "TRL" None None "" PrimFloat.nan :: []) :: [])
    [Fixtures.solar_plan]
  = Eip13a.main ([] ++ (Fixtures.eiep_csv ++ []) :: []) [Fixtures.solar_plan].
Proof.
  apply eiep_other_records_ignored; [discriminate | reflexivity | reflexivity].
Defined.

Lemma mapM_all_value_error {A B : Type} (f : A -> result B) (l : list A) (a : A) :
  (forall x e, f x = Err e -> e = ValueError) ->
  In a l -> f a = Err ValueError -> mapM f l = Err ValueError.
Proof.
  intros Hf. induction l as [ | x l IH]; intros Hin Ha; [destruct Hin | ].
  cbn. destruct Hin as [-> | Hin].
  - now rewrite Ha.
  - destruct (f x) as [b | e] eqn:E; cbn.
    + now rewrite (IH Hin Ha).
    + now rewrite (Hf x e E).
Qed.

(** The files of a run load, all of them, when every one reads as text,
    and the run ends in an AttributeError, with nothing printed, when one
    does not. *)
Lemma mapM_load_eiep13a (csvfiles : list (list Eip13a.raw_row)) :
  mapM Eip13a.load_eiep13a csvfiles
  = if forallb Spec.reads_as_text csvfiles
    then Ok (map (fun f => map Eip13a.cleaned (filter Eip13a.is_det f)) csvfiles)
    else Err AttributeError.
Proof.
  induction csvfiles as [ | f fs IH]; [reflexivity | ].
  cbn [mapM forallb map]. destruct (Spec.reads_as_text f) eqn:E.
  - rewrite (load_eiep13a_text _ E). cbn [bind andb]. rewrite IH.
    now destruct (forallb Spec.reads_as_text fs).
  - now rewrite (load_eiep13a_not_text _ E).
Qed.

Lemma derive_value_error (x : Eip13a.reading) (e : exn) :
  Eip13a.derive x = Err e -> e = ValueError.
Proof.
  unfold Eip13a.derive. destruct (Eip13a.read_start x); [discriminate | ].
  intros E. now injection E as <-.
Qed.

(** A detail record whose start time does not parse ends the run of
    eip13a.py before any plan is costed: nothing is printed and nothing is
    saved. When every file reads as text the run ends in a ValueError: the
    time is coerced to NaT when the file is loaded, and the minute of the
    day of NaT is NaN, of which no timedelta can be made. When a file does
    not read as text the run ends, sooner, in an AttributeError. *)
Theorem eiep_unparsed_start_aborts (csvfiles : list (list Eip13a.raw_row))
    (csvfile : list Eip13a.raw_row) (r : Eip13a.raw_row)
    (rate_plans : list Eip13a.plan) :
  In csvfile csvfiles -> In r csvfile ->
  Str.upper (Str.strip (Eip13a.raw_rec_type r)) = "DET" ->
  Eip13a.raw_read_start r = None ->
  Eip13a.main csvfiles rate_plans
  = ([], Err (if forallb Spec.reads_as_text csvfiles then ValueError
              else AttributeError)).
Proof.
  intros Hfile Hr Hdet Hnat. unfold Eip13a.main. rewrite mapM_load_eiep13a.
  destruct (forallb Spec.reads_as_text csvfiles); [ | reflexivity].
  cbn [lift run_bind]. unfold Eip13a.pd_concat.
  destruct csvfiles as [ | f fs] eqn:Hfs; [destruct Hfile | ]. rewrite <- Hfs in *.
  replace (match map (fun f0 => map Eip13a.cleaned (filter Eip13a.is_det f0)) csvfiles with
           | [] => Err ValueError
           | _ :: _ =>
               Ok (List.concat
                     (map (fun f0 => map Eip13a.cleaned (filter Eip13a.is_det f0)) csvfiles))
           end)
    with (Ok (List.concat
                (map (fun f0 => map Eip13a.cleaned (filter Eip13a.is_det f0)) csvfiles)))
    by (rewrite Hfs; reflexivity).
  cbn [run_bind app].
  rewrite (mapM_all_value_error Eip13a.derive _ (Eip13a.cleaned r)).
  - reflexivity.
  - exact derive_value_error.
  - apply in_concat. exists (map Eip13a.cleaned (filter Eip13a.is_det csvfile)). split.
    + apply in_map_iff. exists csvfile. now split.
    + apply in_map. apply filter_In. split; [exact Hr | now apply String.eqb_eq].
  - unfold Eip13a.derive, Eip13a.cleaned. cbn. now rewrite Hnat.
Qed.

(** The fixture file with a detail record that has no start time. *)
Lemma eiep_unparsed_start_aborts_witness :
  Eip13a.main [Fixtures.eiep_csv ++ [Fixtures.undated_raw]] [Fixtures.solar_plan]
  = ([], Err ValueError).
Proof.
  exact (eiep_unparsed_start_aborts
           [Fixtures.eiep_csv ++ [Fixtures.undated_raw]]
           (Fixtures.eiep_csv ++ [Fixtures.undated_raw])
           Fixtures.undated_raw [Fixtures.solar_plan]
           (or_introl eq_refl)
           (in_or_app Fixtures.eiep_csv [Fixtures.undated_raw] Fixtures.undated_raw
              (or_intror (or_introl eq_refl)))
           eq_refl eq_refl).
Defined.

(** ** What a run prints and saves *)

Lemma eiep_plan_loop_shape (rate_plans : list Eip13a.plan) (df_all : list Eip13a.interval) :
  forall all_results,
  Spec.loop_shape (map Eip13a.get_title rate_plans) (Eip13a.plan_loop rate_plans df_all all_results).
Proof.
  induction rate_plans as [ | p plans IH]; intros acc; [split; reflexivity | ].
  cbn [Eip13a.plan_loop map].
  destruct (Eip13a.monthly_rows p df_all) as [rows | e]; cbn [lift run_bind];
    [ | split; [reflexivity | discriminate]].
  destruct (Eip13a.total_row p rows) as [total | e]; cbn [lift run_bind];
    [ | split; [reflexivity | discriminate]].
  specialize (IH ((acc ++ [rows ++ [total]]) ++ [rows ++ [total]])).
  destruct (Eip13a.plan_loop plans df_all _) as [t r]. destruct IH as [IH1 IH2].
  cbn [emit run_bind app fst snd] in *. split.
  - cbn [fst List.length firstn map Spec.event_title]. now rewrite IH1.
  - intros a Ha. cbn [fst snd List.length] in *. f_equal. now apply (IH2 a).
Qed.

Lemma wide_plan_loop_shape (cfg : Calculate.config) (rate_plans : list Calculate.plan) :
  forall df all_results,
  Spec.loop_shape (map Calculate.get_title rate_plans)
             (Calculate.plan_loop cfg rate_plans df all_results).
Proof.
  induction rate_plans as [ | p plans IH]; intros df acc; [split; reflexivity | ].
  cbn [Calculate.plan_loop map].
  destruct (Calculate.plan_step cfg df p) as [st | e]; cbn [lift run_bind];
    [ | split; [reflexivity | discriminate]].
  destruct (Calculate.total_row p (snd st)) as [total | e]; cbn [lift run_bind];
    [ | split; [reflexivity | discriminate]].
  specialize (IH (fst st) (acc ++ [snd st ++ [total]])).
  destruct (Calculate.plan_loop cfg plans (fst st) _) as [t r]. destruct IH as [IH1 IH2].
  cbn [emit run_bind app fst snd] in *. split.
  - cbn [fst List.length firstn map Spec.event_title]. now rewrite IH1.
  - intros a Ha. cbn [fst snd List.length] in *. f_equal. now apply (IH2 a).
Qed.

Lemma main_shape {R : Type} (titles : list string) (loop : run R (list (list R)))
    (concat_all : list (list R) -> result (list R)) :
  Spec.loop_shape titles loop ->
  Spec.trace_shape titles
    (all_results <~ loop ;; final_df <~ lift (concat_all all_results) ;; emit (Saved final_df)).
Proof.
  destruct loop as [t [res | e]]; intros [H1 H2]; cbn [fst snd] in *.
  - specialize (H2 res eq_refl). rewrite H2 in H1.
    rewrite <- (length_map Some titles) in H2.
    assert (Hall : map Spec.event_title t = map Some titles).
    { rewrite H1. f_equal. apply firstn_all2. rewrite length_map in H2. lia. }
    unfold Spec.trace_shape. cbn [run_bind lift].
    destruct (concat_all res) as [final | e]; cbn [run_bind emit fst snd].
    + exists t, final. split; [reflexivity | exact Hall].
    + rewrite !app_nil_r. rewrite Hall. f_equal. symmetry. apply firstn_all2.
      rewrite length_map in H2. lia.
  - unfold Spec.trace_shape. cbn [run_bind fst snd]. exact H1.
Qed.

(** Whatever the files and the plans, a run of either program leaves one of
    two traces. A run that succeeds has printed the summary of every plan,
    in plan order, and then saved the table, once, as its last act. A run
    that fails has saved nothing: it has printed the summaries of the plans
    that came before the failure, in plan order, and no more. *)
Theorem run_saves_last_or_never :
  (forall csvfiles rate_plans,
      Spec.trace_shape (map Eip13a.get_title rate_plans)
                       (Eip13a.main csvfiles rate_plans))
  /\ (forall cfg csvfile rate_plans,
        Spec.trace_shape (map Calculate.get_title rate_plans)
                         (Calculate.main cfg csvfile rate_plans)).
Proof.
  split.
  - intros csvfiles plans. unfold Eip13a.main.
    destruct (mapM Eip13a.load_eiep13a csvfiles) as [frames | e];
      cbn [lift run_bind]; [ | reflexivity].
    destruct (Eip13a.pd_concat frames) as [loaded | e];
      cbn [lift run_bind]; [ | reflexivity].
    destruct (mapM Eip13a.derive loaded) as [df_all | e]; cbn [run_bind]; [ | reflexivity].
    pose proof (main_shape _ _ Eip13a.pd_concat (eiep_plan_loop_shape plans df_all [])) as H.
    destruct (_ <~ Eip13a.plan_loop plans df_all [] ;; _) as [t r]. exact H.
  - intros cfg csvfile plans. unfold Calculate.main.
    destruct (Calculate.read_csv csvfile) as [df0 | e]; cbn [lift run_bind]; [ | reflexivity].
    destruct (Calculate.load cfg df0) as [df | e]; cbn [run_bind]; [ | reflexivity].
    pose proof (main_shape _ _ Calculate.pd_concat (wide_plan_loop_shape cfg plans df [])) as H.
    destruct (_ <~ Calculate.plan_loop cfg plans df [] ;; _) as [t r]. exact H.
Qed.

Lemma mapM_derive_error (loaded : list Eip13a.reading) (e : exn) :
  mapM Eip13a.derive loaded = Err e -> e = ValueError.
Proof.
  revert e. induction loaded as [ | x l IH]; intros e D; [discriminate | ].
  cbn [mapM] in D.
  destruct (Eip13a.derive x) eqn:Hx; cbn [bind] in D.
  - destruct (mapM Eip13a.derive l); cbn [bind] in D; [discriminate | ].
    injection D as <-. now apply IH.
  - injection D as <-. exact (derive_value_error _ _ Hx).
Qed.

(** With no rate plan at all, neither program has a table to save: the run
    ends in an error with nothing printed and nothing saved. In eip13a.py
    the error is an AttributeError when a file does not read as text, and a
    ValueError when all do. *)
Theorem no_plans_no_output :
  (forall csvfiles,
      Eip13a.main csvfiles []
      = ([], Err (if forallb Spec.reads_as_text csvfiles then ValueError
                  else AttributeError)))
  /\ (forall cfg csvfile, exists e, Calculate.main cfg csvfile [] = ([], Err e)).
Proof.
  split.
  - intros csvfiles. unfold Eip13a.main. rewrite mapM_load_eiep13a.
    destruct (forallb Spec.reads_as_text csvfiles); [ | reflexivity].
    cbn [lift run_bind].
    destruct (Eip13a.pd_concat _) as [loaded | e] eqn:E.
    + cbn [lift run_bind].
      destruct (mapM Eip13a.derive loaded) as [df_all | e] eqn:D; cbn [run_bind].
      * reflexivity.
      * now rewrite (mapM_derive_error _ _ D).
    + unfold Eip13a.pd_concat in E.
      destruct (map _ csvfiles); [ | discriminate].
      injection E as <-. reflexivity.
  - intros cfg csvfile. unfold Calculate.main.
    destruct (Calculate.read_csv csvfile) as [df0 | e]; cbn [lift run_bind];
      [ | now exists e].
    destruct (Calculate.load cfg df0) as [df | e]; cbn [run_bind]; [ | now exists e].
    now exists ValueError.
Qed.

(** ** Groups of days *)

Section GroupByFacts.
Context {K A : Type} (eqb ltb : K -> K -> bool).
Hypothesis apart : forall a b, eqb a b = false -> ltb a b = false -> ltb b a = true.

Lemma group_insert_count (k : K) (a : A) (gs : list (K * list A)) :
  Spec.members_count (group_insert eqb ltb k a gs) = S (Spec.members_count gs).
Proof.
  induction gs as [ | [k' members] gs IH]; [reflexivity | ].
  cbn [group_insert]. destruct (eqb k k').
  - cbn. rewrite length_app. cbn. lia.
  - destruct (ltb k k'); [reflexivity | ].
    unfold Spec.members_count in *. cbn [fold_right snd]. rewrite IH. lia.
Qed.

Lemma groupby_count (rows : list (K * A)) :
  Spec.members_count (groupby eqb ltb rows) = List.length rows.
Proof.
  unfold groupby.
  assert (H : forall gs, Spec.members_count
                           (fold_left (fun gs r => group_insert eqb ltb (fst r) (snd r) gs)
                                      rows gs)
                         = (List.length rows + Spec.members_count gs)%nat).
  { induction rows as [ | r rows IH]; intros gs; [reflexivity | ].
    cbn [fold_left List.length]. rewrite IH, group_insert_count. lia. }
  rewrite H. cbn. lia.
Qed.

Lemma group_insert_ascending (k : K) (a : A) (gs : list (K * list A)) :
  Spec.ascending ltb (map fst gs) ->
  Spec.ascending ltb (map fst (group_insert eqb ltb k a gs)).
Proof.
  induction gs as [ | [k' members] gs IH]; intros H; [cbn; tauto | ].
  cbn [group_insert]. destruct (eqb k k') eqn:E; [exact H | ].
  destruct (ltb k k') eqn:L; [cbn in *; tauto | ].
  cbn [map fst Spec.ascending] in H |- *. destruct H as [Hhead Hrest]. split.
  - destruct gs as [ | [k'' m''] gs']; cbn [group_insert map fst].
    + now apply apart.
    + destruct (eqb k k''); [exact Hhead | ].
      destruct (ltb k k''); [now apply apart | exact Hhead].
  - now apply IH.
Qed.

Lemma groupby_ascending (rows : list (K * A)) :
  Spec.ascending ltb (map fst (groupby eqb ltb rows)).
Proof.
  unfold groupby.
  assert (H : forall gs, Spec.ascending ltb (map fst gs) ->
                         Spec.ascending ltb
                           (map fst (fold_left
                                       (fun gs r => group_insert eqb ltb (fst r) (snd r) gs)
                                       rows gs))).
  { induction rows as [ | r rows IH]; intros gs Hgs; [exact Hgs | ].
    cbn [fold_left]. apply IH. now apply group_insert_ascending. }
  apply H. exact I.
Qed.

End GroupByFacts.

Lemma month_apart (a b : month_key) :
  month_eqb a b = false -> month_ltb a b = false -> month_ltb b a = true.
Proof.
  unfold month_eqb, month_ltb. destruct a as [ya ma], b as [yb mb]. cbn [fst snd].
  intros E L.
  apply andb_false_iff in E. apply orb_false_iff in L. destruct L as [L1 L2].
  apply Z.ltb_ge in L1. apply andb_false_iff in L2. apply orb_true_iff.
  destruct (Z.eq_dec ya yb) as [-> | Hy].
  - right. rewrite Z.eqb_refl in *. cbn [andb]. apply Z.ltb_lt.
    destruct E as [E | E]; [discriminate | ]. apply Z.eqb_neq in E.
    destruct L2 as [L2 | L2]; [discriminate | ]. apply Z.ltb_ge in L2. lia.
  - left. apply Z.ltb_lt. lia.
Qed.

(** The month rows of a plan stand in calendar order, one row for each
    month that has a day: their labels are the labels of a strictly
    ascending list of months. So in both programs, whatever the order of
    the days in the files. *)
Theorem month_rows_in_calendar_order :
  (forall cfg df p df' rows,
      Calculate.plan_step cfg df p = Ok (df', rows) ->
      exists months,
        map Calculate.Month rows = map strftime_Ym months
        /\ Spec.ascending month_ltb months)
  /\ (forall p df_all rows,
        Eip13a.monthly_rows p df_all = Ok rows ->
        exists months,
          map Eip13a.Month rows = map strftime_Ym months
          /\ Spec.ascending month_ltb months).
Proof.
  split.
  - intros cfg df p df' rows H. unfold Calculate.plan_step in H. bind_inv H.
    injection H as _ <-. eexists. split.
    + rewrite map_map. cbn [Calculate.Month Calculate.month_row].
      rewrite <- (map_map fst strftime_Ym). reflexivity.
    + apply groupby_ascending. exact month_apart.
  - intros p df_all rows H. unfold Eip13a.monthly_rows in H. bind_inv H.
    injection H as <-. eexists. split.
    + rewrite map_map. cbn [Eip13a.Month Eip13a.month_row].
      rewrite <- (map_map fst strftime_Ym). reflexivity.
    + apply groupby_ascending. exact month_apart.
Qed.

(** Days of February, then of January, for the flat plan. *)
Lemma month_rows_in_calendar_order_witness :
  exists months,
    ["2024-01"; "2024-02"] = map strftime_Ym months
    /\ Spec.ascending month_ltb months.
Proof.
  pose proof (proj1 month_rows_in_calendar_order Fixtures.wide_config
                Fixtures.unordered_frame Fixtures.flat_plan _ _ eq_refl) as H.
  exact H.
Defined.

(** ** Days counted *)

Lemma fold_days {G : Type} (days_of : G -> Z) (size : G -> nat) (groups : list G) :
  (forall g, days_of g = Z.of_nat (size g)) ->
  forall a,
  fold_left Z.add (map days_of groups) a
  = a + Z.of_nat (fold_right (fun g n => (size g + n)%nat) O groups).
Proof.
  intros H. induction groups as [ | g groups IH]; intros a; cbn [map fold_left fold_right].
  - lia.
  - rewrite IH, H. lia.
Qed.

Lemma keyed_dates {A : Type} (dates : list Calculate.value) :
  forall (periods : list (option month_key)) (items : list A),
  mapM Calculate.period_of dates = Ok periods ->
  (List.length dates <= List.length items)%nat ->
  List.length (Calculate.keyed periods items)
  = List.length (filter Spec.has_date dates).
Proof.
  induction dates as [ | v dates IH]; intros periods items H Hlen.
  - cbn in H. injection H as <-. reflexivity.
  - apply mapM_cons_ok in H. destruct H as [k [ks [Hv [Hks ->]]]].
    destruct items as [ | a items]; [cbn in Hlen; lia | ]. cbn in Hlen.
    destruct v as [c | [d | ] | f]; cbn in Hv; try discriminate; injection Hv as <-;
      cbn [Calculate.keyed filter Spec.has_date List.length];
      rewrite (IH ks items Hks); try reflexivity; lia.
Qed.

(** The Days_in_month of the TOTAL row counts the days that were costed.
    Wide format (the frame having a value in every cell, and no configured
    column named as a working column): it is the number of rows of the
    frame whose date is a date; a row whose date did not parse is in no
    month. Import/export: it is the number of days that have a reading. *)
Theorem total_days_counted :
  (forall cfg df p table dates,
      Calculate.rect df ->
      Calculate.working_columns_free cfg ->
      Calculate.plan_table cfg df p = Ok table ->
      Calculate.get_column df (Calculate.date_column cfg) = Ok dates ->
      exists monthly t,
        table = monthly ++ [t]
        /\ Calculate.Days_in_month t
           = Z.of_nat (List.length (filter Spec.has_date dates)))
  /\ (forall p df_all table days,
        Eip13a.plan_table p df_all = Ok table ->
        Eip13a.daily_results p df_all = Ok days ->
        exists monthly t,
          table = monthly ++ [t]
          /\ Eip13a.Days_in_month t = Z.of_nat (List.length days)).
Proof.
  split.
  - intros cfg df p table dates Hrect Hfree H Hdates.
    destruct (wide_plan_table_inv _ _ _ _ H) as [df' [monthly [t [Hstep [Ht ->]]]]].
    exists monthly, t. split; [reflexivity | ].
    destruct (wide_total_row_of _ _ _ Ht) as [_ [_ [_ [-> _]]]].
    destruct (plan_step_pure cfg df p Hrect Hfree) as [Hrows _].
    rewrite Hstep in Hrows. cbn [result_map snd] in Hrows. symmetry in Hrows.
    unfold Spec.wide_month_rows in Hrows. rewrite Hdates in Hrows.
    apply bind_ok in Hrows. destruct Hrows as [costs [Hcosts Hrows]].
    apply bind_ok in Hrows. destruct Hrows as [quantities [Hq Hrows]].
    cbn [bind] in Hrows.
    apply bind_ok in Hrows. destruct Hrows as [periods [Hperiods Hrows]].
    injection Hrows as Hrows. rewrite <- Hrows. rewrite map_map.
    cbn [Calculate.month_row Calculate.Days_in_month].
    rewrite (fold_days _ (fun g => List.length (snd g))); [ | reflexivity].
    change (fold_right _ O ?g) with (Spec.members_count g).
    rewrite groupby_count. cbn [Z.add]. f_equal.
    apply keyed_dates; [exact Hperiods | ].
    rewrite length_combine, length_row_sums.
    rewrite (mapM_length _ _ _ Hcosts), (mapM_length _ _ _ Hq).
    unfold Calculate.get_column in Hdates. rewrite (mapM_length _ _ _ Hdates). lia.
  - intros p df_all table days H Hdays.
    destruct (eiep_plan_table_inv _ _ _ H) as [monthly [t [Hrows [Ht ->]]]].
    exists monthly, t. split; [reflexivity | ].
    destruct (eiep_total_row_of _ _ _ Ht) as [_ [_ [-> _]]].
    unfold Eip13a.monthly_rows in Hrows. rewrite Hdays in Hrows.
    cbn [bind] in Hrows. injection Hrows as <-. rewrite map_map.
    cbn [Eip13a.month_row Eip13a.Days_in_month].
    rewrite (fold_days _ (fun g => List.length (snd g))); [ | reflexivity].
    change (fold_right _ O ?g) with (Spec.members_count g).
    rewrite groupby_count, length_map. reflexivity.
Qed.

(** Four rows, one of them without a date: three days. *)
Lemma total_days_counted_witness :
  exists monthly t,
    [Fixtures.unordered_january; Fixtures.unordered_february; Fixtures.unordered_total]
    = monthly ++ [t]
    /\ Calculate.Days_in_month t = Z.of_nat 3.
Proof.
  refine (proj1 total_days_counted Fixtures.wide_config Fixtures.unordered_frame
            Fixtures.flat_plan _ _ _ _ eq_refl eq_refl).
  - intros r [<- | [<- | [<- | [<- | []]]]]; reflexivity.
  - repeat split; try discriminate; cbn; intros [H | [H | []]]; discriminate H.
Defined.

(** ** Plans with bands *)

(** A banded plan that has no band list for the bucket of a day (weekend
    or weekday) fails on that day with a KeyError. Wide format: every day
    of that bucket fails, and with it the table of the plan. Import/export:
    an import reading of such a day fails, and with it the totals of the
    day, whatever readings stand before and after it. *)
Theorem missing_bucket_fails :
  (forall cfg df p r day is_weekend quantities t,
      In r (Calculate.data df) ->
      Calculate.row_get df r (Calculate.date_column cfg) = Ok day ->
      Calculate.is_weekend_of day = Ok is_weekend ->
      Calculate.row_intervals df (Calculate.interval_columns cfg) r = Ok quantities ->
      Calculate.has_bands p = Some t ->
      (if is_weekend then weekend_bands t else weekday_bands t) = None ->
      Calculate.daily_cost_of cfg df p r = Err KeyError
      /\ exists e, Calculate.plan_table cfg df p = Err e)
  /\ (forall p (is_weekend : bool) iv t,
        Eip13a.direction iv = "I" ->
        Eip13a.has_bands p = Some t ->
        (if is_weekend then weekend_bands t else weekday_bands t) = None ->
        (forall acc, Eip13a.reading_step p is_weekend acc iv = Err KeyError)
        /\ forall acc before after,
             exists e, Eip13a.day_totals p is_weekend acc (before ++ iv :: after) = Err e).
Proof.
  split.
  - intros cfg df p r day w qs t Hin Hday Hw Hq Ht Hnone.
    assert (Hcost : Calculate.daily_cost_of cfg df p r = Err KeyError).
    { unfold Calculate.daily_cost_of. rewrite Hday. cbn [bind]. rewrite Hw. cbn [bind].
      rewrite Ht, Hq. cbn [bind].
      unfold Calculate.calculate_band_cost, band_table_item. now rewrite Hnone. }
    split; [exact Hcost | ].
    unfold Calculate.plan_table, Calculate.plan_step.
    destruct (mapM_err_in _ _ _ _ Hin Hcost) as [e ->]. now exists e.
  - intros p w iv t HI Ht Hnone.
    assert (Hstep : forall acc, Eip13a.reading_step p w acc iv = Err KeyError).
    { intros [imports exports]. unfold Eip13a.reading_step, Eip13a.import_cost.
      rewrite HI. cbn [String.eqb]. change (String.eqb "I" "I") with true. cbn iota.
      rewrite Ht. unfold band_table_item. now rewrite Hnone. }
    split; [exact Hstep | ].
    intros acc before after. rewrite day_totals_app.
    destruct (Eip13a.day_totals p w acc before) as [acc' | e]; cbn [bind]; [ | now exists e].
    cbn [Eip13a.day_totals]. rewrite Hstep. now exists KeyError.
Qed.

(** A plan with weekday bands only, on a Saturday. *)
Lemma missing_bucket_fails_witness :
  Calculate.daily_cost_of Fixtures.wide_config Fixtures.weekend_frame
    Fixtures.weekday_only_plan Fixtures.saturday = Err KeyError.
Proof.
  exact (proj1 (proj1 missing_bucket_fails Fixtures.wide_config Fixtures.weekend_frame
                  Fixtures.weekday_only_plan Fixtures.saturday
                  (Calculate.Time (Some (Date 2024 1 6))) true [4; 6]%float
                  {| weekday_bands := Some [Fixtures.all_day]; weekend_bands := None |}
                  (or_introl eq_refl) eq_refl eq_refl eq_refl eq_refl eq_refl)).
Defined.

(** ** Imports and exports of a day *)

(** Over import readings only, the exports stay and the imports do not
    depend on them. *)
Lemma day_totals_imports_only (p : Eip13a.plan) (w : bool) (group : list Eip13a.interval) :
  (forall iv, In iv group -> Eip13a.direction iv = "I") ->
  forall i e i' e',
  Eip13a.day_totals p w (i, e) group = Ok (i', e') ->
  e' = e /\ forall e0, Eip13a.day_totals p w (i, e0) group = Ok (i', e0).
Proof.
  induction group as [ | iv group IH]; intros Hall i e i' e' H.
  - cbn in H. injection H as <- <-. split; reflexivity.
  - cbn [Eip13a.day_totals] in H |- *.
    rewrite (reading_step_import p w iv i e (Hall iv (or_introl eq_refl))) in H.
    destruct (Eip13a.import_cost p w iv) as [c | err] eqn:Hc; cbn [bind] in H;
      [ | discriminate].
    destruct (IH (fun x Hx => Hall x (or_intror Hx)) _ _ _ _ H) as [-> Hrest].
    split; [reflexivity | ]. intros e0.
    rewrite (reading_step_import p w iv i e0 (Hall iv (or_introl eq_refl))), Hc.
    cbn [bind]. apply Hrest.
Qed.

(** Over export readings only, the imports stay and the exports do not
    depend on them. *)
Lemma day_totals_exports_only (p : Eip13a.plan) (w : bool) (group : list Eip13a.interval) :
  (forall iv, In iv group -> Eip13a.direction iv = "X") ->
  forall i e i' e',
  Eip13a.day_totals p w (i, e) group = Ok (i', e') ->
  i' = i /\ forall i0, Eip13a.day_totals p w (i0, e) group = Ok (i0, e').
Proof.
  induction group as [ | iv group IH]; intros Hall i e i' e' H.
  - cbn in H. injection H as <- <-. split; reflexivity.
  - cbn [Eip13a.day_totals] in H |- *.
    rewrite (reading_step_export p w iv i e (Hall iv (or_introl eq_refl))) in H.
    destruct (Eip13a.export_credit p w iv) as [oc | err] eqn:Hc; cbn [bind] in H;
      [ | discriminate].
    destruct (IH (fun x Hx => Hall x (or_intror Hx)) _ _ _ _ H) as [-> Hrest].
    split; [reflexivity | ]. intros i0.
    rewrite (reading_step_export p w iv i0 e (Hall iv (or_introl eq_refl))), Hc.
    cbn [bind]. apply Hrest.
Qed.

Lemma of_direction_all (d : string) (group : list Eip13a.interval) :
  forall iv, In iv (Spec.of_direction d group) -> Eip13a.direction iv = d.
Proof.
  intros iv H. apply filter_In in H. destruct H as [_ H]. now apply String.eqb_eq.
Qed.

(** The imports and the exports of a day are kept apart. When the totals
    of a day compute, the imports are those of its import readings alone,
    in their order, and the exports are those of its export readings
    alone, in their order: no reading of one direction, or of neither,
    changes the total of the other. *)
Theorem day_totals_by_direction (p : Eip13a.plan) (is_weekend : bool)
    (group : list Eip13a.interval) :
  forall imports exports imports' exports',
  Eip13a.day_totals p is_weekend (imports, exports) group = Ok (imports', exports') ->
  Eip13a.day_totals p is_weekend (imports, exports) (Spec.of_direction "I" group)
  = Ok (imports', exports)
  /\ Eip13a.day_totals p is_weekend (imports, exports) (Spec.of_direction "X" group)
     = Ok (imports, exports').
Proof.
  induction group as [ | iv group IH]; intros i e i' e' H.
  - cbn in H. injection H as <- <-. split; reflexivity.
  - cbn [Eip13a.day_totals] in H. unfold Spec.of_direction in *. cbn [filter].
    destruct (String.eqb (Eip13a.direction iv) "I") eqn:EI.
    + apply String.eqb_eq in EI.
      replace (String.eqb (Eip13a.direction iv) "X") with false by now rewrite EI.
      rewrite (reading_step_import p is_weekend iv i e EI) in H.
      cbn [Eip13a.day_totals]. rewrite (reading_step_import p is_weekend iv i e EI).
      destruct (Eip13a.import_cost p is_weekend iv) as [c | err]; cbn [bind] in H |- *;
        [ | discriminate].
      destruct (IH _ _ _ _ H) as [HI HX]. split; [exact HI | ].
      destruct (day_totals_exports_only p is_weekend _ (of_direction_all "X" group)
                  _ _ _ _ HX) as [_ Hany].
      apply Hany.
    + destruct (String.eqb (Eip13a.direction iv) "X") eqn:EX.
      * apply String.eqb_eq in EX.
        rewrite (reading_step_export p is_weekend iv i e EX) in H.
        cbn [Eip13a.day_totals]. rewrite (reading_step_export p is_weekend iv i e EX).
        destruct (Eip13a.export_credit p is_weekend iv) as [oc | err];
          cbn [bind] in H |- *; [ | discriminate].
        destruct (IH _ _ _ _ H) as [HI HX]. split; [ | exact HX].
        destruct (day_totals_imports_only p is_weekend _ (of_direction_all "I" group)
                    _ _ _ _ HI) as [_ Hany].
        apply Hany.
      * apply String.eqb_neq in EI, EX.
        rewrite (reading_step_stray p is_weekend (i, e) iv EI EX) in H. cbn [bind] in H.
        now apply IH.
Qed.

(** An import, a reading of neither direction and an export. *)
Lemma day_totals_by_direction_witness :
  Eip13a.day_totals Fixtures.solar_plan false (0, 0)%float
    (Spec.of_direction "X" [Fixtures.import_10; Fixtures.stray; Fixtures.export_4])
  = Ok (0, 0 + 4 * 0.08)%float.
Proof.
  exact (proj2 (day_totals_by_direction Fixtures.solar_plan false
                  [Fixtures.import_10; Fixtures.stray; Fixtures.export_4]
                  0%float 0%float (0 + 10 * 0.30)%float (0 + 4 * 0.08)%float eq_refl)).
Defined.

(** ** The usage columns *)

Lemma group_insert_map {K A B : Type} (eqb ltb : K -> K -> bool) (f : A -> B)
    (k : K) (a : A) (gs : list (K * list A)) :
  group_insert eqb ltb k (f a) (map (fun g => (fst g, map f (snd g))) gs)
  = map (fun g => (fst g, map f (snd g))) (group_insert eqb ltb k a gs).
Proof.
  induction gs as [ | [k' members] gs IH]; [reflexivity | ].
  cbn [map fst snd group_insert]. destruct (eqb k k').
  - cbn. now rewrite map_app.
  - destruct (ltb k k'); [reflexivity | ]. cbn [map fst snd]. now rewrite IH.
Qed.

Lemma groupby_map {K A B : Type} (eqb ltb : K -> K -> bool) (f : A -> B)
    (rows : list (K * A)) :
  groupby eqb ltb (map (fun r => (fst r, f (snd r))) rows)
  = map (fun g => (fst g, map f (snd g))) (groupby eqb ltb rows).
Proof.
  unfold groupby.
  assert (H : forall gs,
             fold_left (fun gs r => group_insert eqb ltb (fst r) (snd r) gs)
                       (map (fun r => (fst r, f (snd r))) rows)
                       (map (fun g => (fst g, map f (snd g))) gs)
             = map (fun g => (fst g, map f (snd g)))
                   (fold_left (fun gs r => group_insert eqb ltb (fst r) (snd r) gs) rows gs)).
  { induction rows as [ | r rows IH]; intros gs; [reflexivity | ].
    cbn [map fold_left fst snd]. rewrite group_insert_map. apply IH. }
  exact (H []).
Qed.

Lemma keyed_fst {A B : Type} (periods : list (option month_key)) :
  forall (xs : list A) (ys : list B),
  List.length xs = List.length ys ->
  map (fun ka => (fst ka, fst (snd ka))) (Calculate.keyed periods (combine xs ys))
  = Calculate.keyed periods xs.
Proof.
  induction periods as [ | k periods IH]; intros xs ys H; [reflexivity | ].
  destruct xs as [ | x xs], ys as [ | y ys]; try discriminate H.
  - destruct k; reflexivity.
  - injection H as H. destruct k as [k | ]; cbn [combine Calculate.keyed map fst snd].
    + now rewrite IH.
    + now apply IH.
Qed.

(** The month rows of a frame as far as [Spec.usage] goes, from the kWh
    of its days alone. *)
Lemma wide_month_rows_usage (cfg : Calculate.config) (df : Calculate.frame)
    (p : Calculate.plan) (rows : list Calculate.row) :
  Spec.wide_month_rows cfg df p = Ok rows ->
  exists quantities periods,
    mapM (Calculate.row_intervals df (Calculate.interval_columns cfg)) (Calculate.data df)
    = Ok quantities
    /\ (dates <- Calculate.get_column df (Calculate.date_column cfg) ;;
        mapM Calculate.period_of dates) = Ok periods
    /\ map Spec.usage rows
       = map (fun g => (strftime_Ym (fst g), Fl.group_sum (snd g),
                        Z.of_nat (List.length (snd g))))
             (groupby month_eqb month_ltb
                (Calculate.keyed periods (Fl.row_sums quantities))).
Proof.
  unfold Spec.wide_month_rows. intros H.
  apply bind_ok in H. destruct H as [costs [Hcosts H]].
  apply bind_ok in H. destruct H as [quantities [Hq H]].
  apply bind_ok in H. destruct H as [dates [Hdates H]].
  apply bind_ok in H. destruct H as [periods [Hperiods H]].
  injection H as <-. exists quantities, periods. split; [exact Hq | ]. split.
  - rewrite Hdates. exact Hperiods.
  - rewrite <- (keyed_fst periods (Fl.row_sums quantities) costs).
    + rewrite (groupby_map month_eqb month_ltb fst), !map_map.
      apply map_ext. intros [k members]. unfold Spec.usage. cbn. now rewrite length_map.
    + rewrite length_row_sums.
      rewrite (mapM_length _ _ _ Hcosts), (mapM_length _ _ _ Hq). reflexivity.
Qed.

(** The months, their kWh and their numbers of days are the same in the
    table of every plan: what differs from plan to plan is the costs. (In
    the wide format, on a frame with a value in every cell and no
    configured column named as a working column.) *)
Theorem usage_same_for_all_plans (cfg : Calculate.config) (df : Calculate.frame)
    (p p' : Calculate.plan) (df1 df2 : Calculate.frame)
    (rows rows' : list Calculate.row) :
  Calculate.rect df ->
  Calculate.working_columns_free cfg ->
  Calculate.plan_step cfg df p = Ok (df1, rows) ->
  Calculate.plan_step cfg df p' = Ok (df2, rows') ->
  map Spec.usage rows = map Spec.usage rows'.
Proof.
  intros Hrect Hfree H H'.
  destruct (plan_step_pure cfg df p Hrect Hfree) as [Hp _].
  destruct (plan_step_pure cfg df p' Hrect Hfree) as [Hp' _].
  rewrite H in Hp. rewrite H' in Hp'. cbn [result_map snd] in Hp, Hp'.
  destruct (wide_month_rows_usage cfg df p rows (eq_sym Hp)) as [k1 [q1 [A1 [B1 C1]]]].
  destruct (wide_month_rows_usage cfg df p' rows' (eq_sym Hp')) as [k2 [q2 [A2 [B2 C2]]]].
  rewrite A1 in A2. injection A2 as <-. rewrite B1 in B2. injection B2 as <-.
  now rewrite C1, C2.
Qed.

(** The flat and the banded plan on the frame of three days. *)
Lemma usage_same_for_all_plans_witness :
  map Spec.usage [Fixtures.flat_january; Fixtures.flat_february]
  = map Spec.usage [Fixtures.banded_january; Fixtures.banded_february].
Proof.
  refine (usage_same_for_all_plans Fixtures.wide_config Fixtures.wide_frame
            Fixtures.flat_plan Fixtures.banded_plan _ _ _ _ _ _ eq_refl eq_refl).
  - intros r [<- | [<- | [<- | []]]]; reflexivity.
  - repeat split; try discriminate; cbn; intros [H | [H | []]]; discriminate H.
Defined.
